(** * Partial-credit scoring of ACR retrieval results

    A shallow embedding of the retrieval-and-scoring code of the
    repository: the text handed to the encoder when the index is built
    ([embed_acr.py]) and when it is queried ([search_acr.py],
    [test_embedding_accuracy.py], [test_embedding_accuracy_3desc.py]),
    the procedure-set extraction and the partial-credit loop of
    [analyze_partial_credit.py], and the counting loop of the
    three-description evaluator.

    Conventions.
    - Python [int] is [Z]; Python [float] results of [/], [sum] and
      [np.mean] are exact rationals [Q] (rounding is not modelled).
    - A Python [set] of hashable values is a [gset PyKey]; a [dict] keyed
      by strings is a [gmap string _].
    - A raised exception is the [Raise] case of [result]. *)

From Stdlib Require Import ZArith QArith List String Ascii Lia Lqa.
From stdpp Require Import base option gmap strings list sorting.

Local Open Scope Z_scope.
Set Warnings "-register-all".

(** ** Exceptions *)

Inductive PyExc : Type :=
| TypeError
| ZeroDivisionError.

Inductive result (A : Type) : Type :=
| Ok (a : A)
| Raise (e : PyExc).
Arguments Ok {A} a.
Arguments Raise {A} e.

Definition rbind {A B : Type} (m : result A) (k : A -> result B) : result B :=
  match m with
  | Ok a => k a
  | Raise e => Raise e
  end.

#[global] Instance result_ret : MRet result := fun A a => Ok a.
#[global] Instance result_bind : MBind result := fun A B k m => rbind m k.

(** A [for] loop whose body may raise: the first exception leaves the loop. *)
Fixpoint for_each {S A : Type} (body : S -> A -> result S) (st : S) (xs : list A)
  : result S :=
  match xs with
  | [] => Ok st
  | x :: xs' => st' ← body st x; for_each body st' xs'
  end.

(** ** Python values *)

(** The hashable values that can sit in a [set] or key a [dict].  Python
    compares [True == 1] and [False == 0], so a [bool] is kept under its
    integer. *)
Inductive PyKey : Type :=
| KNone
| KInt (z : Z)
| KStr (s : string).

(** What [json.loads] and [ast.literal_eval] hand back.  Numbers with a
    fraction, tuples, sets and bytes are left out. *)
Inductive PyVal : Type :=
| PNone
| PBool (b : bool)
| PInt (z : Z)
| PStr (s : string)
| PList (l : list PyVal)
| PDict (d : list (PyKey * PyVal)).

#[global] Instance PyKey_eq_dec : EqDecision PyKey.
Proof. solve_decision. Defined.

Definition PyKey_enc (k : PyKey) : unit + Z + string :=
  match k with
  | KNone => inl (inl tt)
  | KInt z => inl (inr z)
  | KStr s => inr s
  end.

Definition PyKey_dec (x : unit + Z + string) : PyKey :=
  match x with
  | inl (inl _) => KNone
  | inl (inr z) => KInt z
  | inr s => KStr s
  end.

#[global] Instance PyKey_countable : Countable PyKey.
Proof.
  refine (inj_countable' PyKey_enc PyKey_dec _).
  intros []; reflexivity.
Defined.

Definition key_to_val (k : PyKey) : PyVal :=
  match k with
  | KNone => PNone
  | KInt z => PInt z
  | KStr s => PStr s
  end.

(** [hash(v)]: lists and dicts are unhashable. *)
Definition py_hash (v : PyVal) : result PyKey :=
  match v with
  | PNone => Ok KNone
  | PBool b => Ok (KInt (Z.b2z b))
  | PInt z => Ok (KInt z)
  | PStr s => Ok (KStr s)
  | PList _ => Raise TypeError
  | PDict _ => Raise TypeError
  end.

(** Truth value of an object, as tested by [if x] and [not x]. *)
Definition truthy (v : PyVal) : bool :=
  match v with
  | PNone => false
  | PBool b => b
  | PInt z => negb (z =? 0)
  | PStr s => negb (String.eqb s EmptyString)
  | PList l => match l with [] => false | _ => true end
  | PDict d => match d with [] => false | _ => true end
  end.

(** One-character strings of a string, the items a [for] over it yields. *)
Fixpoint chars (s : string) : list PyVal :=
  match s with
  | EmptyString => []
  | String c s' => PStr (String c EmptyString) :: chars s'
  end.

(** [iter(v)]: a list yields its items, a dict its keys, a string its
    characters; [None], booleans and integers are not iterable. *)
Definition py_iter (v : PyVal) : result (list PyVal) :=
  match v with
  | PList l => Ok l
  | PDict d => Ok (map (fun kv => key_to_val (fst kv)) d)
  | PStr s => Ok (chars s)
  | PNone => Raise TypeError
  | PBool _ => Raise TypeError
  | PInt _ => Raise TypeError
  end.

(** [k in d] and [d[k]] for a dict stored in insertion order. *)
Fixpoint dict_get (d : list (PyKey * PyVal)) (k : PyKey) : option PyVal :=
  match d with
  | [] => None
  | (k', v) :: d' => if decide (k' = k) then Some v else dict_get d' k
  end.

(** [s.add(v)] *)
Definition set_add (s : gset PyKey) (v : PyVal) : result (gset PyKey) :=
  k ← py_hash v; Ok ({[ k ]} ∪ s).

(** [if s] for a set *)
Definition set_truthy (s : gset PyKey) : bool := bool_decide (s ≠ ∅).

(** A cell of a pandas column of text: a string, or NaN when missing. *)
Inductive Cell : Type :=
| CNaN
| CStr (s : string).

Definition int_to_Q (n : Z) : Q := inject_Z n.
Definition len_Q {A : Type} (l : list A) : Q := inject_Z (Z.of_nat (length l)).
Definition card_Q (s : gset PyKey) : Q := inject_Z (Z.of_nat (size s)).

(** ** [analyze_partial_credit.py]: procedure-set extraction *)

Section Extraction.

(** [json.loads], [ast.literal_eval] and [repr] belong to Python's
    library.  A parser returns [None] where the Python function raises
    (both calls sit under a bare [except]). *)
Variable json_loads : string -> option PyVal.
Variable literal_eval : string -> option PyVal.
Variable py_repr : PyVal -> string.

(** [str(v)]: a string is itself, anything else prints as its [repr]. *)
Definition py_str (v : PyVal) : string :=
  match v with
  | PStr s => s
  | _ => py_repr v
  end.

Definition safe_parse_json (json_str : Cell) : PyVal :=
  match json_str with
  | CNaN => PList []
  | CStr s =>
      match json_loads s with
      | Some v => v
      | None =>
          match literal_eval s with
          | Some v => v
          | None => PList []
          end
      end
  end.

(** Body of [for proc in procedures]. *)
Definition extract_step (proc_set : gset PyKey) (proc : PyVal)
  : result (gset PyKey) :=
  match proc with
  | PDict d =>
      s1 ← match dict_get d (KStr "code") with
           | Some c => set_add proc_set c
           | None => Ok proc_set
           end;
      s2 ← match dict_get d (KStr "name") with
           | Some n => set_add s1 n
           | None => Ok s1
           end;
      if set_truthy s2 then Ok s2
      else set_add s2 (PStr (py_str proc))
  | _ => set_add proc_set (PStr (py_str proc))
  end.

Definition extract_procedures (procedure_json : Cell) : result (gset PyKey) :=
  let procedures := safe_parse_json procedure_json in
  if negb (truthy procedures) then Ok ∅
  else
    items ← py_iter procedures;
    for_each extract_step ∅ items.

End Extraction.

(** ** [analyze_partial_credit.py]: the partial-credit loop *)

(** A row of the evaluation-results table read by [analyze_partial_credit]. *)
Record ResultRow : Type := {
  description_type : string;
  original_variant : string;
  retrieved_variant : string
}.

(** The counters and score lists the loop updates. *)
Record Acc : Type := {
  exact_matches : Z;
  procedure_matches : Z;
  condition_matches : Z;
  procedure_precision_scores : list Q;
  procedure_recall_scores : list Q
}.

Definition acc_init : Acc :=
  {| exact_matches := 0; procedure_matches := 0; condition_matches := 0;
     procedure_precision_scores := []; procedure_recall_scores := [] |}.

(** One entry of the [analysis] dict. *)
Record Summary : Type := {
  total_queries : Z;
  sum_exact_matches : Z;
  sum_procedure_matches : Z;
  sum_condition_matches : Z;
  exact_accuracy : Q;
  procedure_accuracy : Q;
  condition_accuracy : Q;
  procedure_precision : Q;
  procedure_recall : Q;
  procedure_f1 : Q
}.

(** [a / b] *)
Definition py_div (a b : Q) : result Q :=
  if Qeq_bool b 0 then Raise ZeroDivisionError else Ok (a / b)%Q.

(** [sum(l)] *)
Definition py_sum (l : list Q) : Q := fold_left Qplus l 0%Q.

(** [if s] for a string *)
Definition str_truthy (s : string) : bool := negb (String.eqb s EmptyString).

Section Scoring.

Variable json_loads : string -> option PyVal.
Variable literal_eval : string -> option PyVal.
Variable py_repr : PyVal -> string.

(** The two mappings returned by [load_acr_mapping] that the loop reads. *)
Variable variant_to_procedure : gmap string Cell.
Variable variant_to_condition : gmap string string.

Definition procedures_of (variant : string) : result (gset PyKey) :=
  extract_procedures json_loads literal_eval py_repr
    (default (CStr "[]") (variant_to_procedure !! variant)).

(** Body of [for _, row in desc_results.iterrows()]. *)
Definition loop_body (st : Acc) (row : ResultRow) : result Acc :=
  if decide (original_variant row = retrieved_variant row) then
    Ok {| exact_matches := exact_matches st + 1;
          procedure_matches := procedure_matches st + 1;
          condition_matches := condition_matches st + 1;
          procedure_precision_scores := procedure_precision_scores st ++ [1%Q];
          procedure_recall_scores := procedure_recall_scores st ++ [1%Q] |}
  else
    original_procedures ← procedures_of (original_variant row);
    retrieved_procedures ← procedures_of (retrieved_variant row);
    let st1 :=
      if set_truthy original_procedures && set_truthy retrieved_procedures then
        let intersection := original_procedures ∩ retrieved_procedures in
        let precision :=
          if set_truthy retrieved_procedures
          then (card_Q intersection / card_Q retrieved_procedures)%Q else 0%Q in
        let recall :=
          if set_truthy original_procedures
          then (card_Q intersection / card_Q original_procedures)%Q else 0%Q in
        {| exact_matches := exact_matches st;
           procedure_matches :=
             if set_truthy intersection then procedure_matches st + 1
             else procedure_matches st;
           condition_matches := condition_matches st;
           procedure_precision_scores := procedure_precision_scores st ++ [precision];
           procedure_recall_scores := procedure_recall_scores st ++ [recall] |}
      else
        {| exact_matches := exact_matches st;
           procedure_matches := procedure_matches st;
           condition_matches := condition_matches st;
           procedure_precision_scores := procedure_precision_scores st ++ [0%Q];
           procedure_recall_scores := procedure_recall_scores st ++ [0%Q] |} in
    let original_condition := variant_to_condition !! original_variant row in
    let retrieved_condition := variant_to_condition !! retrieved_variant row in
    match original_condition, retrieved_condition with
    | Some oc, Some rc =>
        if str_truthy oc && str_truthy rc && bool_decide (oc = rc) then
          Ok {| exact_matches := exact_matches st1;
                procedure_matches := procedure_matches st1;
                condition_matches := condition_matches st1 + 1;
                procedure_precision_scores := procedure_precision_scores st1;
                procedure_recall_scores := procedure_recall_scores st1 |}
        else Ok st1
    | _, _ => Ok st1
    end.

(** The metrics computed after the loop for one description type. *)
Definition metrics (total : Z) (st : Acc) : result Summary :=
  exact_accuracy ← py_div (int_to_Q (exact_matches st)) (int_to_Q total);
  procedure_accuracy ← py_div (int_to_Q (procedure_matches st)) (int_to_Q total);
  condition_accuracy ← py_div (int_to_Q (condition_matches st)) (int_to_Q total);
  avg_procedure_precision ←
    py_div (py_sum (procedure_precision_scores st))
           (len_Q (procedure_precision_scores st));
  avg_procedure_recall ←
    py_div (py_sum (procedure_recall_scores st))
           (len_Q (procedure_recall_scores st));
  let procedure_f1 :=
    if Qlt_le_dec 0 (avg_procedure_precision + avg_procedure_recall)
    then (2 * (avg_procedure_precision * avg_procedure_recall)
          / (avg_procedure_precision + avg_procedure_recall))%Q
    else 0%Q in
  Ok {| total_queries := total;
        sum_exact_matches := exact_matches st;
        sum_procedure_matches := procedure_matches st;
        sum_condition_matches := condition_matches st;
        exact_accuracy := exact_accuracy;
        procedure_accuracy := procedure_accuracy;
        condition_accuracy := condition_accuracy;
        procedure_precision := avg_procedure_precision;
        procedure_recall := avg_procedure_recall;
        procedure_f1 := procedure_f1 |}.

(** The body of [for desc_type in ...] on the rows already selected
    for that description type. *)
Definition analyze_group (desc_results : list ResultRow) : result Summary :=
  st ← for_each loop_body acc_init desc_results;
  metrics (Z.of_nat (length desc_results)) st.

Definition select (desc_type : string) (df_results : list ResultRow)
  : list ResultRow :=
  filter (fun row => description_type row = desc_type) df_results.

Fixpoint analyze_types (desc_types : list string) (df_results : list ResultRow)
  : result (list (string * Summary)) :=
  match desc_types with
  | [] => Ok []
  | desc_type :: rest =>
      s ← analyze_group (select desc_type df_results);
      analysis ← analyze_types rest df_results;
      Ok ((desc_type, s) :: analysis)
  end.

Definition analyze_partial_credit (df_results : list ResultRow)
  : result (list (string * Summary)) :=
  analyze_types ["desc_1"; "desc_2"; "desc_3"]%string df_results.

End Scoring.

(** ** [embed_acr.py], [search_acr.py], [test_embedding_accuracy.py]:
       the text handed to the encoder *)

Module Embed.

(** A row of [dataset/acr.csv]. *)
Record AcrRow : Type := {
  Condition : string;
  Variant : string;
  Procedure : string;
  Appropriateness_Category : string
}.

Section Encoder.

(** [model.encode] of the sentence-transformers model. *)
Variable Vec : Type.
Variable encode : string -> Vec.

(** A row of the [acr_embeddings] table. *)
Record EmbeddingRow : Type := {
  e_condition : string;
  e_variant : string;
  e_procedure : string;
  e_appropriateness : string;
  e_combined_text : string;
  e_embedding : Vec
}.

(** [embed_acr.py], line 36. *)
Definition combined_text (row : AcrRow) : string :=
  "Condition: " +:+ Condition row +:+ " | Clinical Scenario: " +:+ Variant row.

(** [embed_acr.py], body of the loop over the catalog. *)
Definition embed_row (row : AcrRow) : EmbeddingRow :=
  let combined_text := combined_text row in
  let embedding := encode combined_text in
  {| e_condition := Condition row;
     e_variant := Variant row;
     e_procedure := Procedure row;
     e_appropriateness := Appropriateness_Category row;
     e_combined_text := combined_text;
     e_embedding := embedding |}.

(** [search_acr.py], line 18: the query is encoded as it comes. *)
Definition search_query_embedding (query : string) : Vec :=
  encode query.

(** [test_embedding_accuracy.py], line 40. *)
Definition query_text (row : AcrRow) : string := Variant row.

(** [test_embedding_accuracy.py], line 43. *)
Definition query_embedding (row : AcrRow) : Vec :=
  encode (query_text row).

End Encoder.

End Embed.

(** ** [test_embedding_accuracy_3desc.py]: the counting loop *)

Module Desc3.

Inductive DescType : Type := desc_1 | desc_2 | desc_3.

Definition desc_name (t : DescType) : string :=
  match t with
  | desc_1 => "desc_1"
  | desc_2 => "desc_2"
  | desc_3 => "desc_3"
  end.

(** A row of [results/patient_cases_2.csv]; [descriptions t] is
    [row[desc_type]]. *)
Record CaseRow : Type := {
  original_variant : string;
  descriptions : DescType -> Cell
}.

(** An entry of [all_results]. *)
Record DetailRow : Type := {
  description_type : string;
  query_id : Z;
  detail_original_variant : string;
  synthetic_description : string;
  retrieved_condition : string;
  retrieved_variant : string;
  exact_match : string;
  euclidean_distance : Q
}.

(** The variables the loop over the rows updates. *)
Record EvalState : Type := {
  correct_matches : Z;
  total_queries : Z;
  distances : list Q;
  all_results : list DetailRow
}.

(** An entry of [results_summary]. *)
Record EvalSummary : Type := {
  summary_description_type : string;
  summary_total_queries : Z;
  summary_exact_matches : Z;
  accuracy : Q;
  mean_distance : Q
}.

Section Evaluator.

Variable Vec : Type.
(** [self.model.encode] *)
Variable encode : string -> Vec.
(** The [ORDER BY embedding <-> q LIMIT 1] query followed by
    [cur.fetchone()]: [None] when the table has no row. *)
Variable fetch_nearest : Vec -> option (string * string * Q).
(** [round(x, ndigits)] *)
Variable py_round : Q -> Z -> Q.

(** Body of [for idx, row in df.iterrows()]. *)
Definition eval_step (desc_type : DescType) (st : EvalState)
           (idx_row : Z * CaseRow) : EvalState :=
  let '(idx, row) := idx_row in
  match descriptions row desc_type with
  | CNaN => st
  | CStr synthetic_desc =>
      let total_queries' := total_queries st + 1 in
      let query_embedding := encode synthetic_desc in
      match fetch_nearest query_embedding with
      | Some (retrieved_condition, retrieved_variant, distance) =>
          let exact_match := bool_decide (retrieved_variant = original_variant row) in
          {| correct_matches :=
               if exact_match then correct_matches st + 1 else correct_matches st;
             total_queries := total_queries';
             distances := distances st ++ [distance];
             all_results := all_results st ++
               [{| description_type := desc_name desc_type;
                   query_id := idx + 1;
                   detail_original_variant := original_variant row;
                   synthetic_description := synthetic_desc;
                   retrieved_condition := retrieved_condition;
                   retrieved_variant := retrieved_variant;
                   exact_match := if exact_match then "Yes" else "No";
                   euclidean_distance := py_round distance 6 |}] |}
      | None =>
          {| correct_matches := correct_matches st;
             total_queries := total_queries';
             distances := distances st;
             all_results := all_results st |}
      end
  end.

(** [df.iterrows()] over the default index. *)
Definition iterrows (df : list CaseRow) : list (Z * CaseRow) :=
  imap (fun i row => (Z.of_nat i, row)) df.

(** The loop over the rows for one description type, started with
    fresh counters and the detail rows gathered so far. *)
Definition eval_loop (desc_type : DescType) (all_results0 : list DetailRow)
           (df : list CaseRow) : EvalState :=
  fold_left (eval_step desc_type)
            (iterrows df)
            {| correct_matches := 0; total_queries := 0; distances := [];
               all_results := all_results0 |}.

(** The metrics computed after the loop. *)
Definition summarize (desc_type : DescType) (st : EvalState) : EvalSummary :=
  let accuracy :=
    if 0 <? total_queries st
    then (int_to_Q (correct_matches st) / int_to_Q (total_queries st))%Q
    else 0%Q in
  let mean_distance :=
    match distances st with
    | [] => 0%Q
    | _ => (py_sum (distances st) / len_Q (distances st))%Q
    end in
  {| summary_description_type := desc_name desc_type;
     summary_total_queries := total_queries st;
     summary_exact_matches := correct_matches st;
     accuracy := py_round accuracy 4;
     mean_distance := py_round mean_distance 6 |}.

Fixpoint eval_types (desc_types : list DescType) (all_results0 : list DetailRow)
         (df : list CaseRow) : list EvalSummary * list DetailRow :=
  match desc_types with
  | [] => ([], all_results0)
  | desc_type :: rest =>
      let st := eval_loop desc_type all_results0 df in
      let '(results_summary, all_results') := eval_types rest (all_results st) df in
      (summarize desc_type st :: results_summary, all_results')
  end.

Definition evaluate_synthetic_descriptions (df : list CaseRow)
  : list EvalSummary * list DetailRow :=
  eval_types [desc_1; desc_2; desc_3] [] df.

End Evaluator.

End Desc3.

(** ** Notions used to state the properties *)

Definition bump (b : bool) : Z := if b then 1 else 0.

(** What a non-exact row adds, read off the two extracted sets: whether
    it counts as a procedure match, and its precision and recall. *)
Definition overlap (Pe Pr : gset PyKey) : bool * Q * Q :=
  if set_truthy Pe && set_truthy Pr
  then (set_truthy (Pe ∩ Pr),
        (card_Q (Pe ∩ Pr) / card_Q Pr)%Q,
        (card_Q (Pe ∩ Pr) / card_Q Pe)%Q)
  else (false, 0%Q, 0%Q).

(** What the loop keeps true of its counters and score lists. *)
Record acc_inv (st : Acc) : Prop := {
  inv_exact_nonneg : 0 <= exact_matches st;
  inv_exact_procedure : exact_matches st <= procedure_matches st;
  inv_exact_condition : exact_matches st <= condition_matches st;
  inv_precision_nonneg : (0 <= py_sum (procedure_precision_scores st))%Q;
  inv_recall_nonneg : (0 <= py_sum (procedure_recall_scores st))%Q;
  inv_scores_together :
    (0 < py_sum (procedure_precision_scores st))%Q <->
    (0 < py_sum (procedure_recall_scores st))%Q
}.

Section Extractable.

Variable json_loads : string -> option PyVal.
Variable literal_eval : string -> option PyVal.
Variable py_repr : PyVal -> string.
Variable variant_to_procedure : gmap string Cell.

Local Abbreviation procs :=
  (procedures_of json_loads literal_eval py_repr variant_to_procedure).

(** The rows on which the procedure sets are read can all be extracted. *)
Definition extractable (row : ResultRow) : Prop :=
  original_variant row = retrieved_variant row \/
  ((exists Pe, procs (original_variant row) = Ok Pe) /\
   (exists Pr, procs (retrieved_variant row) = Ok Pr)).

End Extractable.

Fixpoint count {A : Type} (f : A -> bool) (l : list A) : Z :=
  match l with
  | [] => 0
  | x :: l' => bump (f x) + count f l'
  end.

Section Lookups.

Variable Vec : Type.
Variable encode : string -> Vec.
Variable fetch_nearest : Vec -> option (string * string * Q).
Variable py_round : Q -> Z -> Q.
Variable desc_type : Desc3.DescType.

(** The row has a description of this type: a query is issued. *)
Definition issued (idx_row : Z * Desc3.CaseRow) : bool :=
  match Desc3.descriptions idx_row.2 desc_type with
  | CStr _ => true
  | CNaN => false
  end.

(** The description and what the lookup returned for it, when it
    returned something. *)
Definition answer (idx_row : Z * Desc3.CaseRow)
  : option (string * (string * string * Q)) :=
  match Desc3.descriptions idx_row.2 desc_type with
  | CStr synthetic_desc =>
      match fetch_nearest (encode synthetic_desc) with
      | Some result => Some (synthetic_desc, result)
      | None => None
      end
  | CNaN => None
  end.

Definition answered (idx_row : Z * Desc3.CaseRow) : bool :=
  match answer idx_row with Some _ => true | None => false end.

Definition correct (idx_row : Z * Desc3.CaseRow) : bool :=
  match answer idx_row with
  | Some (_, (_, variant, _)) =>
      bool_decide (variant = Desc3.original_variant idx_row.2)
  | None => false
  end.

Definition distance_of (idx_row : Z * Desc3.CaseRow) : option Q :=
  match answer idx_row with
  | Some (_, (_, _, distance)) => Some distance
  | None => None
  end.

Definition detail_of (idx_row : Z * Desc3.CaseRow) : option Desc3.DetailRow :=
  match answer idx_row with
  | Some (synthetic_desc, (condition, variant, distance)) =>
      Some {| Desc3.description_type := Desc3.desc_name desc_type;
              Desc3.query_id := idx_row.1 + 1;
              Desc3.detail_original_variant := Desc3.original_variant idx_row.2;
              Desc3.synthetic_description := synthetic_desc;
              Desc3.retrieved_condition := condition;
              Desc3.retrieved_variant := variant;
              Desc3.exact_match :=
                if bool_decide (variant = Desc3.original_variant idx_row.2)
                then "Yes" else "No";
              Desc3.euclidean_distance := py_round distance 6 |}
  | None => None
  end.

End Lookups.

(** ** Sample data for the worked instances *)

Definition dq : string := String "034"%char EmptyString.
Definition quoted (s : string) : string := dq +:+ s +:+ dq.

(** [{"X":"Usually appropriate","Y":"May be appropriate"}] *)
Definition json_A : string :=
  "{" +:+ quoted "X" +:+ ":" +:+ quoted "Usually appropriate" +:+ ","
      +:+ quoted "Y" +:+ ":" +:+ quoted "May be appropriate" +:+ "}".

(** [{"X":"Usually appropriate","Z":"Usually not appropriate"}] *)
Definition json_B : string :=
  "{" +:+ quoted "X" +:+ ":" +:+ quoted "Usually appropriate" +:+ ","
      +:+ quoted "Z" +:+ ":" +:+ quoted "Usually not appropriate" +:+ "}".

(** [[{"code": "A"}, {"other": "x"}]] *)
Definition json_fieldless : string :=
  "[{" +:+ quoted "code" +:+ ": " +:+ quoted "A" +:+ "}, {"
       +:+ quoted "other" +:+ ": " +:+ quoted "x" +:+ "}]".

(** [json.loads] on the sample texts; any other text is taken as
    rejected. *)
Definition sample_json_loads (s : string) : option PyVal :=
  if String.eqb s json_A then
    Some (PDict [(KStr "X", PStr "Usually appropriate");
                 (KStr "Y", PStr "May be appropriate")])
  else if String.eqb s json_B then
    Some (PDict [(KStr "X", PStr "Usually appropriate");
                 (KStr "Z", PStr "Usually not appropriate")])
  else if String.eqb s json_fieldless then
    Some (PList [PDict [(KStr "code", PStr "A")];
                 PDict [(KStr "other", PStr "x")]])
  else if String.eqb s "[]" then Some (PList [])
  else if String.eqb s "5" then Some (PInt 5)
  else None.

Definition sample_literal_eval (s : string) : option PyVal := None.

Definition sample_repr (v : PyVal) : string :=
  match v with
  | PDict [(KStr "other", PStr "x")] => "{'other': 'x'}"
  | _ => "?"
  end.

Definition sample_procedures : gmap string Cell :=
  {[ "A" := CStr json_A; "B" := CStr json_B; "bad" := CStr "5" ]}.

Definition sample_conditions : gmap string string :=
  {[ "A" := "Chest pain"; "B" := "Chest pain" ]}.

Definition row_AB : ResultRow :=
  {| description_type := "desc_1"; original_variant := "A"; retrieved_variant := "B" |}.

Definition row_AA : ResultRow :=
  {| description_type := "desc_1"; original_variant := "A"; retrieved_variant := "A" |}.

Definition row_bad : ResultRow :=
  {| description_type := "desc_1"; original_variant := "bad"; retrieved_variant := "bad" |}.

Definition rows_sample : list ResultRow := [row_AB; row_AA].

Definition row_device : Embed.AcrRow :=
  {| Embed.Condition := "Pacemaker";
     Embed.Variant := "Device selection";
     Embed.Procedure := "CT chest";
     Embed.Appropriateness_Category := "Usually appropriate" |}.

Definition echo_encode (text : string) : string := text.
Definition empty_index (v : string) : option (string * string * Q) := None.
Definition keep_round (x : Q) (ndigits : Z) : Q := x.


(** ** Notions used to state the further properties *)

(** The test of the condition step: both variants are in the condition
    mapping, under the same condition, and that condition is not the
    empty string. *)
Definition same_condition (variant_to_condition : gmap string string)
           (original retrieved : string) : bool :=
  match variant_to_condition !! original, variant_to_condition !! retrieved with
  | Some oc, Some rc => str_truthy oc && str_truthy rc && bool_decide (oc = rc)
  | _, _ => false
  end.

(** The row with expected and retrieved variant exchanged. *)
Definition swap_row (row : ResultRow) : ResultRow :=
  {| description_type := description_type row;
     original_variant := retrieved_variant row;
     retrieved_variant := original_variant row |}.

Definition row_AC : ResultRow :=
  {| description_type := "desc_1"; original_variant := "A"; retrieved_variant := "C" |}.

Definition exact_row (row : ResultRow) : Prop :=
  original_variant row = retrieved_variant row.

Definition results_sample : list ResultRow :=
  [ {| description_type := "desc_1"; original_variant := "A"; retrieved_variant := "A" |};
    {| description_type := "desc_2"; original_variant := "A"; retrieved_variant := "B" |};
    {| description_type := "desc_3"; original_variant := "B"; retrieved_variant := "B" |};
    {| description_type := "desc_3"; original_variant := "A"; retrieved_variant := "bad" |};
    {| description_type := "other"; original_variant := "A"; retrieved_variant := "B" |} ].

(** [isinstance(v, dict)] *)
Definition is_dict (v : PyVal) : bool :=
  match v with PDict _ => true | _ => false end.

(** Whether [hash(v)] returns. *)
Definition hashable (v : PyVal) : bool :=
  match py_hash v with Ok _ => true | Raise _ => false end.

(** A list entry whose [code] and [name] fields, where it is a dict and
    has them, can be put in a set. *)
Definition entry_hashable (v : PyVal) : bool :=
  match v with
  | PDict d =>
      match dict_get d (KStr "code") with Some c => hashable c | None => true end &&
      match dict_get d (KStr "name") with Some n => hashable n | None => true end
  | _ => true
  end.

(** The string forms of a list of items, as set elements. *)
Definition str_keys (py_repr : PyVal -> string) (items : list PyVal) : gset PyKey :=
  list_to_set (map (fun v => KStr (py_str py_repr v)) items).

(** [{"CT chest": "Usually appropriate", "MRI": "May be appropriate"}] as parsed *)
Definition object_sample : list (PyKey * PyVal) :=
  [(KStr "CT chest", PStr "Usually appropriate");
   (KStr "MRI", PStr "May be appropriate")].

Definition const_loads (v : PyVal) (s : string) : option PyVal := Some v.

(** ** [analyze_partial_credit.py]: [load_acr_mapping] *)

Module Mapping.

(** A row of [results/synthetic.csv]. *)
Record SyntheticRow : Type := {
  Variant : string;
  procedure_json : Cell
}.

(** A row of [dataset/acr_appropriateness_criteria.csv], as far as it
    is read. *)
Record CriteriaRow : Type := {
  criteria_Condition : string;
  criteria_Variant : string
}.

(** ['.' in s] *)
Fixpoint has_dot (s : string) : bool :=
  match s with
  | EmptyString => false
  | String c s' => if Ascii.eqb c "." then true else has_dot s'
  end.

(** [s.split('.')[0]]: the text before the first dot, all of [s] when
    it has none. *)
Fixpoint before_dot (s : string) : string :=
  match s with
  | EmptyString => EmptyString
  | String c s' => if Ascii.eqb c "." then EmptyString else String c (before_dot s')
  end.

(** [s[:n]] *)
Fixpoint str_take (n : nat) (s : string) : string :=
  match n, s with
  | O, _ => EmptyString
  | _, EmptyString => EmptyString
  | S n', String c s' => String c (str_take n' s')
  end.

(** The condition guessed from the text of a variant. *)
Definition infer_condition (variant : string) : string :=
  if has_dot variant then before_dot variant else str_take 50 variant.

(** [d[k].add(v)] on a [defaultdict(set)] *)
Definition add_to (condition variant : string) (d : gmap string (gset string))
  : gmap string (gset string) :=
  <[condition := {[ variant ]} ∪ default ∅ (d !! condition)]> d.

(** The keys of a dict filled row by row: each key once, at the place
    of its first insertion. *)
Fixpoint first_occurrences (seen : gset string) (keys : list string) : list string :=
  match keys with
  | [] => []
  | k :: keys' =>
      if decide (k ∈ seen) then first_occurrences seen keys'
      else k :: first_occurrences ({[ k ]} ∪ seen) keys'
  end.

(** The first loop: [variant_to_procedure[row['Variant']] = row['procedure_json']]. *)
Definition load_procedures (df_synthetic : list SyntheticRow) : gmap string Cell :=
  fold_left (fun d row => <[Variant row := procedure_json row]> d) df_synthetic ∅.

(** [variant_to_procedure.keys()] *)
Definition procedure_keys (df_synthetic : list SyntheticRow) : list string :=
  first_occurrences ∅ (map Variant df_synthetic).

(** The loop of the [try] block, over the rows of the criteria file. *)
Definition load_conditions (df_acr : list CriteriaRow)
  : gmap string string * gmap string (gset string) :=
  fold_left
    (fun '(variant_to_condition, condition_to_variants) row =>
       let condition := criteria_Condition row in
       let variant := criteria_Variant row in
       (<[variant := condition]> variant_to_condition,
        add_to condition variant condition_to_variants))
    df_acr (∅, ∅).

(** The loop of the [except FileNotFoundError] block, over the keys of
    [variant_to_procedure]. *)
Definition infer_conditions (variants : list string)
  : gmap string string * gmap string (gset string) :=
  fold_left
    (fun '(variant_to_condition, condition_to_variants) variant =>
       let condition := infer_condition variant in
       (<[variant := condition]> variant_to_condition,
        add_to condition variant condition_to_variants))
    variants (∅, ∅).

(** [df_acr] is [None] when the criteria file is not found. *)
Definition load_acr_mapping (df_synthetic : list SyntheticRow)
           (df_acr : option (list CriteriaRow))
  : gmap string Cell * gmap string string * gmap string (gset string) :=
  let variant_to_procedure := load_procedures df_synthetic in
  let '(variant_to_condition, condition_to_variants) :=
    match df_acr with
    | Some rows => load_conditions rows
    | None => infer_conditions (procedure_keys df_synthetic)
    end in
  (variant_to_procedure, variant_to_condition, condition_to_variants).

End Mapping.

(** The variants filed under a condition, the empty set for a condition
    that is not a key. *)
Definition variants_of (condition_to_variants : gmap string (gset string))
           (condition : string) : gset string :=
  default ∅ (condition_to_variants !! condition).

(** [s1] is the beginning of [s2]. *)
Definition str_prefix (s1 s2 : string) : Prop := exists rest, s2 = s1 +:+ rest.

Definition synthetic_sample : list Mapping.SyntheticRow :=
  [ {| Mapping.Variant := "Chest pain. Initial imaging"; Mapping.procedure_json := CStr "old" |};
    {| Mapping.Variant := "Chest pain. Follow-up"; Mapping.procedure_json := CNaN |};
    {| Mapping.Variant := ".5 cm nodule"; Mapping.procedure_json := CStr "[]" |};
    {| Mapping.Variant := "Chest pain. Initial imaging"; Mapping.procedure_json := CStr "new" |} ].

Definition criteria_sample : list Mapping.CriteriaRow :=
  [ {| Mapping.criteria_Condition := "Chest pain"; Mapping.criteria_Variant := "Initial imaging" |};
    {| Mapping.criteria_Condition := "Headache"; Mapping.criteria_Variant := "Initial imaging" |} ].

(** The detail rows marked as exact matches. *)
Definition yes_rows (details : list Desc3.DetailRow) : list Desc3.DetailRow :=
  filter (fun d => Desc3.exact_match d = "Yes"%string) details.

#[global] Instance DescType_eq_dec : EqDecision Desc3.DescType.
Proof. solve_decision. Defined.

(** The detail rows of one description type. *)
Definition rows_of_type (desc_type : Desc3.DescType) (details : list Desc3.DetailRow)
  : list Desc3.DetailRow :=
  filter (fun d => Desc3.description_type d = Desc3.desc_name desc_type) details.

(** The entry of [results_summary] for a description type. *)
Definition summary_of (desc_type : Desc3.DescType) (summaries : list Desc3.EvalSummary)
  : option Desc3.EvalSummary :=
  summaries !! match desc_type with
               | Desc3.desc_1 => 0%nat
               | Desc3.desc_2 => 1%nat
               | Desc3.desc_3 => 2%nat
               end.

Definition echo_index (v : string) : option (string * string * Q) :=
  Some ("Some condition"%string, v, (1 # 2)%Q).

Definition two_cases : list Desc3.CaseRow :=
  [ {| Desc3.original_variant := "Device selection";
       Desc3.descriptions := fun t =>
         match t with
         | Desc3.desc_1 => CStr "Device selection"
         | Desc3.desc_2 => CStr "72M with pacemaker"
         | Desc3.desc_3 => CNaN
         end |};
    {| Desc3.original_variant := "Follow-up";
       Desc3.descriptions := fun t =>
         match t with
         | Desc3.desc_1 => CNaN
         | _ => CStr "Follow-up"
         end |} ].

(** ** [synthetic_cases_hfinference.py]: reading the three descriptions *)

Module Generate.

(** [c in chars] *)
Fixpoint char_in (c : ascii) (chars : string) : bool :=
  match chars with
  | EmptyString => false
  | String c' chars' => if Ascii.eqb c c' then true else char_in c chars'
  end.

(** [s.lstrip(chars)]: drops the leading characters of [s] that occur
    in [chars], in any order and any number. *)
Fixpoint lstrip (chars : string) (s : string) : string :=
  match s with
  | EmptyString => EmptyString
  | String c s' => if char_in c chars then lstrip chars s' else s
  end.





End Generate.

(** Every character of [s] occurs in [chars]. *)
Fixpoint all_in (chars : string) (s : string) : bool :=
  match s with
  | EmptyString => true
  | String c s' => Generate.char_in c chars && all_in chars s'
  end.

(** [s] is empty or starts with a character that is not in [chars]. *)
Definition starts_outside (chars : string) (s : string) : bool :=
  match s with
  | EmptyString => true
  | String c _ => negb (Generate.char_in c chars)
  end.

(** ** [test_embedding_accuracy.py]: the exact-match evaluator *)

Module Exact.

(** What the evaluation does: it returns, or it stops on the
    [KeyError] of a column missing from an empty frame. *)
Inductive outcome (A : Type) : Type :=
| Returned (a : A)
| KeyError.
Arguments Returned {A} a.
Arguments KeyError {A}.

(** [drop_duplicates()]: the first occurrence of each item is kept. *)
Fixpoint drop_duplicates_from {A : Type} `{EqDecision A} (seen : list A) (l : list A)
  : list A :=
  match l with
  | [] => []
  | x :: l' =>
      if decide (x ∈ seen) then drop_duplicates_from seen l'
      else x :: drop_duplicates_from (x :: seen) l'
  end.

(** [df[['Condition', 'Variant']].drop_duplicates().reset_index(drop=True)] *)
Definition unique_scenarios (df : list Embed.AcrRow) : list (string * string) :=
  drop_duplicates_from [] (map (fun row => (Embed.Condition row, Embed.Variant row)) df).

(** An entry of [evaluation_results]. *)
Record EvalRecord : Type := {
  query_id : Z;
  true_condition : string;
  true_variant : string;
  retrieved_condition : string;
  retrieved_variant : string;
  exact_match : string;
  cosine_distance : Q
}.

(** [summary_stats], without its timestamp. *)
Record SummaryStats : Type := {
  total_queries : Z;
  exact_matches : Z;
  accuracy : Q;
  mean_distance_exact_matches : option Q;
  mean_distance_all : Q
}.

Section Evaluator.

Variable Vec : Type.
Variable encode : string -> Vec.
Variable fetch_nearest : Vec -> option (string * string * Q).
Variable py_round : Q -> Z -> Q.

(** Body of [for idx, row in unique_scenarios.iterrows()]. *)
Definition eval_step (evaluation_results : list EvalRecord)
           (idx_row : Z * (string * string)) : list EvalRecord :=
  let '(idx, (condition, variant)) := idx_row in
  let query_text := variant in
  let query_embedding := encode query_text in
  match fetch_nearest query_embedding with
  | Some (retrieved_condition, retrieved_variant, distance) =>
      let exact_match :=
        bool_decide (retrieved_condition = condition) &&
        bool_decide (retrieved_variant = variant) in
      evaluation_results ++
        [{| query_id := idx + 1;
            true_condition := condition;
            true_variant := variant;
            retrieved_condition := retrieved_condition;
            retrieved_variant := retrieved_variant;
            exact_match := if exact_match then "Yes" else "No";
            cosine_distance := py_round distance 6 |}]
  | None => evaluation_results
  end.

Definition eval_loop (scenarios : list (string * string)) : list EvalRecord :=
  fold_left eval_step (imap (fun i s => (Z.of_nat i, s)) scenarios) [].

(** [df['cosine_distance'].mean()] on a frame with rows *)
Definition mean_distance (records : list EvalRecord) : Q :=
  (py_sum (map cosine_distance records) / len_Q records)%Q.

(** The metrics computed from [results_df]. A frame built from no
    record has no column, so selecting [exact_match] raises. *)
Definition summarize (evaluation_results : list EvalRecord) : outcome SummaryStats :=
  let total_queries := Z.of_nat (length evaluation_results) in
  match evaluation_results with
  | [] => KeyError
  | _ =>
      let exact_rows :=
        filter (fun r => exact_match r = "Yes"%string) evaluation_results in
      let exact_matches := Z.of_nat (length exact_rows) in
      let accuracy :=
        if 0 <? total_queries
        then (int_to_Q exact_matches / int_to_Q total_queries)%Q else 0%Q in
      Returned
        {| total_queries := total_queries;
           exact_matches := exact_matches;
           accuracy := py_round accuracy 4;
           mean_distance_exact_matches :=
             if 0 <? exact_matches
             then Some (py_round (mean_distance exact_rows) 6) else None;
           mean_distance_all := py_round (mean_distance evaluation_results) 6 |}
  end.

Definition evaluate_exact_match_retrieval (df : list Embed.AcrRow)
  : outcome (list EvalRecord * SummaryStats) :=
  let evaluation_results := eval_loop (unique_scenarios df) in
  match summarize evaluation_results with
  | Returned summary_stats => Returned (evaluation_results, summary_stats)
  | KeyError => KeyError
  end.

End Evaluator.

End Exact.

(** The scenario is queried and the index returns something. *)
Definition has_result {Vec : Type} (encode : string -> Vec)
           (fetch_nearest : Vec -> option (string * string * Q))
           (scenario : string * string) : bool :=
  match fetch_nearest (encode scenario.2) with Some _ => true | None => false end.

(** ** [generate_synthetic.py]: one row per variant *)

Module Synthetic.

(** [d[k] = v] on a dict kept in insertion order: a key already there
    keeps its place and takes the new value. *)
Fixpoint dict_set (k v : string) (d : list (string * string)) : list (string * string) :=
  match d with
  | [] => [(k, v)]
  | (k', v') :: d' =>
      if decide (k' = k) then (k, v) :: d' else (k', v') :: dict_set k v d'
  end.

(** The order in which [groupby] yields its keys. *)
Definition str_le (s1 s2 : string) : Prop := String.leb s1 s2 = true.

#[global] Instance str_le_dec : RelDecision str_le.
Proof. intros s1 s2. unfold str_le. apply _. Defined.

(** The keys of [df.groupby('Variant')]: the distinct variants, sorted. *)
Definition group_keys (df : list Embed.AcrRow) : list string :=
  merge_sort str_le (Mapping.first_occurrences ∅ (map Embed.Variant df)).

(** The rows of one group, in the order of the table. *)
Definition group (df : list Embed.AcrRow) (variant : string) : list Embed.AcrRow :=
  filter (fun row => Embed.Variant row = variant) df.

(** The inner loop: [procedures[row['Procedure']] = row['Appropriateness Category']]. *)
Definition procedures_of_group (rows : list Embed.AcrRow) : list (string * string) :=
  fold_left
    (fun procedures row =>
       dict_set (Embed.Procedure row) (Embed.Appropriateness_Category row) procedures)
    rows [].

Section Dumps.

(** [json.dumps(d, separators=(',', ':'))] *)
Variable json_dumps : list (string * string) -> string.

Definition generate_synthetic (df : list Embed.AcrRow) : list Mapping.SyntheticRow :=
  map (fun variant =>
         let procedures := procedures_of_group (group df variant) in
         let procedure_json := json_dumps procedures in
         {| Mapping.Variant := variant;
            Mapping.procedure_json := CStr procedure_json |})
      (group_keys df).

End Dumps.

End Synthetic.

(** [d.get(k)] on a dict kept in insertion order. *)
Fixpoint assoc_get (k : string) (d : list (string * string)) : option string :=
  match d with
  | [] => None
  | (k', v) :: d' => if decide (k' = k) then Some v else assoc_get k d'
  end.

(** An object of strings as [json.loads] returns it. *)
Definition as_object (d : list (string * string)) : PyVal :=
  PDict (map (fun e => (KStr e.1, PStr e.2)) d).

Definition catalog_sample : list Embed.AcrRow :=
  [ {| Embed.Condition := "Headache"; Embed.Variant := "Sudden onset";
       Embed.Procedure := "CT head"; Embed.Appropriateness_Category := "May be appropriate" |};
    {| Embed.Condition := "Chest pain"; Embed.Variant := "Acute";
       Embed.Procedure := "CT chest"; Embed.Appropriateness_Category := "Usually appropriate" |};
    {| Embed.Condition := "Headache"; Embed.Variant := "Sudden onset";
       Embed.Procedure := "MRI head"; Embed.Appropriateness_Category := "Usually appropriate" |};
    {| Embed.Condition := "Headache"; Embed.Variant := "Sudden onset";
       Embed.Procedure := "CT head"; Embed.Appropriateness_Category := "Usually appropriate" |} ].

(** ** [test_embedding_accuracy_3desc.py]: the insights of the report *)

Module Report.

(** [max(items, key=key)] from a first candidate on: a later item
    replaces the candidate only when its key is strictly greater. *)
Fixpoint max_from {A : Type} (key : A -> Q) (best : A) (items : list A) : A :=
  match items with
  | [] => best
  | x :: items' =>
      if Qlt_le_dec (key best) (key x) then max_from key x items'
      else max_from key best items'
  end.

(** [min(items, key=key)], likewise with strictly smaller. *)
Fixpoint min_from {A : Type} (key : A -> Q) (worst : A) (items : list A) : A :=
  match items with
  | [] => worst
  | x :: items' =>
      if Qlt_le_dec (key x) (key worst) then min_from key x items'
      else min_from key worst items'
  end.

(** The best and the worst description type and the accuracy range
    printed under KEY INSIGHTS; [None] where [max] raises on an empty
    summary. *)
Definition insights (results_summary : list Desc3.EvalSummary)
  : option (Desc3.EvalSummary * Desc3.EvalSummary * Q) :=
  match results_summary with
  | [] => None
  | s :: rest =>
      let best_desc := max_from Desc3.accuracy s rest in
      let worst_desc := min_from Desc3.accuracy s rest in
      let accuracy_range := (Desc3.accuracy best_desc - Desc3.accuracy worst_desc)%Q in
      Some (best_desc, worst_desc, accuracy_range)
  end.

End Report.

(** * Properties *)

(** ** Auxiliary facts on sets, rationals and the loop combinator *)

Lemma set_truthy_true (s : gset PyKey) : set_truthy s = true <-> s ≠ ∅.
Proof. unfold set_truthy. apply bool_decide_eq_true. Qed.

Lemma set_truthy_false (s : gset PyKey) : set_truthy s = false <-> s = ∅.
Proof.
  unfold set_truthy. rewrite bool_decide_eq_false.
  split; [apply dec_stable | intros -> H; by apply H].
Qed.

Lemma set_truthy_size (s : gset PyKey) : set_truthy s = true <-> (0 < size s)%nat.
Proof.
  rewrite set_truthy_true. split.
  - intros H. apply Nat.neq_0_lt_0. intros E. apply H.
    by apply leibniz_equiv, size_empty_iff.
  - intros H ->. rewrite size_empty in H. lia.
Qed.

Lemma card_Q_pos (s : gset PyKey) : (0 < card_Q s)%Q <-> (0 < size s)%nat.
Proof.
  unfold card_Q. change 0%Q with (inject_Z 0). rewrite <- Zlt_Qlt. lia.
Qed.

Lemma card_Q_nonneg (s : gset PyKey) : (0 <= card_Q s)%Q.
Proof.
  unfold card_Q. change 0%Q with (inject_Z 0). rewrite <- Zle_Qle. lia.
Qed.

Lemma Qdiv_pos_iff (a b : Q) : (0 < b)%Q -> ((0 < a / b)%Q <-> (0 < a)%Q).
Proof.
  intros Hb. split; intros H.
  - destruct (Qlt_le_dec 0 a) as [|Hle]; [assumption|].
    exfalso. apply (Qlt_irrefl 0). eapply Qlt_le_trans; [exact H|].
    apply Qle_shift_div_r; [assumption|]. rewrite Qmult_0_l. assumption.
  - apply Qlt_shift_div_l; [assumption|]. rewrite Qmult_0_l. assumption.
Qed.

Lemma Qdiv_nonneg (a b : Q) : (0 <= a)%Q -> (0 < b)%Q -> (0 <= a / b)%Q.
Proof.
  intros Ha Hb. apply Qle_shift_div_l; [assumption|].
  rewrite Qmult_0_l. assumption.
Qed.

(** An invariant of the loop body is an invariant of the loop. *)
Lemma for_each_invariant {S A : Type} (body : S -> A -> result S) (P : S -> Prop) :
  (forall st x st', P st -> body st x = Ok st' -> P st') ->
  forall xs st st', P st -> for_each body st xs = Ok st' -> P st'.
Proof.
  intros Hstep xs. induction xs as [|x xs IH]; intros st st' HP Hrun; simpl in Hrun.
  - congruence.
  - destruct (body st x) as [st1|e] eqn:E; simpl in Hrun; [|discriminate].
    eapply IH; [|exact Hrun]. eapply Hstep; eauto.
Qed.

(** ** The loop body, row by row *)

Section ScoringFacts.

Variable json_loads : string -> option PyVal.
Variable literal_eval : string -> option PyVal.
Variable py_repr : PyVal -> string.
Variable variant_to_procedure : gmap string Cell.
Variable variant_to_condition : gmap string string.

Local Abbreviation procs :=
  (procedures_of json_loads literal_eval py_repr variant_to_procedure).
Local Abbreviation body :=
  (loop_body json_loads literal_eval py_repr
             variant_to_procedure variant_to_condition).

Lemma loop_body_exact st row :
  original_variant row = retrieved_variant row ->
  body st row =
    Ok {| exact_matches := exact_matches st + 1;
          procedure_matches := procedure_matches st + 1;
          condition_matches := condition_matches st + 1;
          procedure_precision_scores := procedure_precision_scores st ++ [1%Q];
          procedure_recall_scores := procedure_recall_scores st ++ [1%Q] |}.
Proof. intros H. unfold loop_body. by rewrite decide_True. Qed.

Lemma loop_body_nonexact st row Pe Pr :
  original_variant row <> retrieved_variant row ->
  procs (original_variant row) = Ok Pe ->
  procs (retrieved_variant row) = Ok Pr ->
  exists st',
    body st row = Ok st' /\
    exact_matches st' = exact_matches st /\
    procedure_matches st' = procedure_matches st + bump (overlap Pe Pr).1.1 /\
    (condition_matches st' = condition_matches st \/
     condition_matches st' = condition_matches st + 1) /\
    procedure_precision_scores st' =
      procedure_precision_scores st ++ [(overlap Pe Pr).1.2] /\
    procedure_recall_scores st' =
      procedure_recall_scores st ++ [(overlap Pe Pr).2].
Proof.
  intros Hne HPe HPr. unfold loop_body.
  rewrite decide_False by exact Hne. rewrite HPe, HPr. simpl.
  unfold overlap.
  destruct (set_truthy Pe) eqn:Ee, (set_truthy Pr) eqn:Er; simpl;
    repeat match goal with
      | |- context [match ?x with _ => _ end] => destruct x; simpl
      end;
    eexists; (split; [reflexivity|]); simpl;
    repeat split; auto; lia.
Qed.

Lemma loop_body_cases st row st' :
  body st row = Ok st' ->
  original_variant row = retrieved_variant row \/
  (original_variant row <> retrieved_variant row /\
   exists Pe Pr,
     procs (original_variant row) = Ok Pe /\
     procs (retrieved_variant row) = Ok Pr).
Proof.
  intros H. destruct (decide (original_variant row = retrieved_variant row)) as [|Hne];
    [by left | right]. split; [exact Hne|].
  unfold loop_body in H. rewrite decide_False in H by exact Hne.
  destruct (procs (original_variant row)) as [Pe|]; simpl in H; [|discriminate].
  destruct (procs (retrieved_variant row)) as [Pr|]; simpl in H; [|discriminate].
  eauto.
Qed.

(** Each row adds one precision and one recall, with the match counter
    stepping by the row's procedure flag. *)
Lemma loop_body_row st row st' :
  body st row = Ok st' ->
  exists (e m : bool) (p r : Q),
    exact_matches st' = exact_matches st + bump e /\
    procedure_matches st' = procedure_matches st + bump m /\
    (condition_matches st' = condition_matches st + 1 \/
     (e = false /\ condition_matches st' = condition_matches st)) /\
    procedure_precision_scores st' = procedure_precision_scores st ++ [p] /\
    procedure_recall_scores st' = procedure_recall_scores st ++ [r] /\
    (e = true -> m = true) /\
    (m = true <-> (0 < p)%Q) /\ (m = true <-> (0 < r)%Q) /\
    (0 <= p)%Q /\ (0 <= r)%Q.
Proof.
  intros H. destruct (loop_body_cases _ _ _ H) as [Heq | (Hne & Pe & Pr & HPe & HPr)].
  - rewrite (loop_body_exact st row Heq) in H. injection H as <-.
    exists true, true, 1%Q, 1%Q. simpl. repeat split; auto; try lra; try lia.
  - destruct (loop_body_nonexact st row Pe Pr Hne HPe HPr)
      as (st2 & Hrun & He & Hm & Hc & Hp & Hr).
    rewrite Hrun in H. injection H as <-.
    exists false, (overlap Pe Pr).1.1, (overlap Pe Pr).1.2, (overlap Pe Pr).2.
    rewrite He, Hm, Hp, Hr. simpl.
    split; [lia|]. split; [reflexivity|].
    split; [destruct Hc; [right; by split | by left]|].
    split; [reflexivity|]. split; [reflexivity|]. split; [discriminate|].
    unfold overlap.
    destruct (set_truthy Pe) eqn:Ee, (set_truthy Pr) eqn:Er; simpl;
      try (repeat split; try discriminate; try lra; intros; exfalso; lra).
    apply set_truthy_size in Ee, Er.
    assert (0 < card_Q Pe)%Q by by apply card_Q_pos.
    assert (0 < card_Q Pr)%Q by by apply card_Q_pos.
    rewrite !Qdiv_pos_iff by assumption.
    rewrite card_Q_pos, set_truthy_size.
    repeat split; auto; apply Qdiv_nonneg; auto using card_Q_nonneg.
Qed.

End ScoringFacts.

(** ** The loop and the metrics, batch by batch *)

Lemma py_sum_snoc (l : list Q) (x : Q) : py_sum (l ++ [x]) = (py_sum l + x)%Q.
Proof. unfold py_sum. by rewrite fold_left_app. Qed.

Lemma py_div_Ok (a b q : Q) :
  py_div a b = Ok q -> ~ (b == 0)%Q /\ q = (a / b)%Q.
Proof.
  unfold py_div. destruct (Qeq_bool b 0) eqn:E; [discriminate|].
  intros [= <-]. split; [|reflexivity]. by apply Qeq_bool_neq.
Qed.

Lemma py_div_nonzero (a b : Q) : ~ (b == 0)%Q -> py_div a b = Ok (a / b)%Q.
Proof.
  intros H. unfold py_div. destruct (Qeq_bool b 0) eqn:E; [|reflexivity].
  exfalso. apply H. by apply Qeq_bool_eq.
Qed.

Lemma int_to_Q_nonzero (n : Z) : n <> 0 -> ~ (int_to_Q n == 0)%Q.
Proof.
  intros Hn H. apply Hn. unfold int_to_Q, Qeq in H. simpl in H. lia.
Qed.

Lemma int_to_Q_pos (n : Z) : 0 < n -> (0 < int_to_Q n)%Q.
Proof. intros H. unfold int_to_Q. change 0%Q with (inject_Z 0). by rewrite <- Zlt_Qlt. Qed.

Lemma int_to_Q_le (a b : Z) : a <= b -> (int_to_Q a <= int_to_Q b)%Q.
Proof. intros H. unfold int_to_Q. by rewrite <- Zle_Qle. Qed.

Lemma Qdiv_le_mono (a b c : Q) : (0 < c)%Q -> (a <= b)%Q -> (a / c <= b / c)%Q.
Proof.
  intros Hc Hab. unfold Qdiv. apply Qmult_le_compat_r; [assumption|].
  apply Qlt_le_weak, Qinv_lt_0_compat, Hc.
Qed.

Lemma acc_inv_init : acc_inv acc_init.
Proof. split; unfold py_sum; simpl; try lia; try lra. Qed.

Section BatchFacts.

Variable json_loads : string -> option PyVal.
Variable literal_eval : string -> option PyVal.
Variable py_repr : PyVal -> string.
Variable variant_to_procedure : gmap string Cell.
Variable variant_to_condition : gmap string string.

Local Abbreviation procs :=
  (procedures_of json_loads literal_eval py_repr variant_to_procedure).
Local Abbreviation body :=
  (loop_body json_loads literal_eval py_repr
             variant_to_procedure variant_to_condition).
Local Abbreviation group :=
  (analyze_group json_loads literal_eval py_repr
                 variant_to_procedure variant_to_condition).

Lemma loop_body_inv st row st' :
  acc_inv st -> body st row = Ok st' -> acc_inv st'.
Proof.
  intros [H0 H1 H2 H3 H4 H5] Hrun.
  destruct (loop_body_row _ _ _ _ _ _ _ _ Hrun)
    as (e & m & p & r & He & Hm & Hc & Hp & Hr & Hem & Hmp & Hmr & Hp0 & Hr0).
  assert (bump e <= bump m).
  { destruct e, m; simpl; try lia; by specialize (Hem eq_refl). }
  assert (0 <= bump e) by (destruct e; simpl; lia).
  split; rewrite ?Hp, ?Hr, ?py_sum_snoc; try lia; try lra.
  - rewrite He. destruct Hc as [-> | [-> ->]]; [destruct e|]; simpl; lia.
  - assert ((0 < p)%Q <-> (0 < r)%Q) by (rewrite <- Hmp; exact Hmr).
    split; intros Hs.
    + destruct (Qlt_le_dec 0 p); [assert (0 < r)%Q by tauto; lra|].
      assert (0 < py_sum (procedure_precision_scores st))%Q by lra.
      assert (0 < py_sum (procedure_recall_scores st))%Q by tauto. lra.
    + destruct (Qlt_le_dec 0 r); [assert (0 < p)%Q by tauto; lra|].
      assert (0 < py_sum (procedure_recall_scores st))%Q by lra.
      assert (0 < py_sum (procedure_precision_scores st))%Q by tauto. lra.
Qed.

Lemma loop_inv rows st st' :
  acc_inv st -> for_each body st rows = Ok st' -> acc_inv st'.
Proof. apply for_each_invariant. intros ? ? ?. apply loop_body_inv. Qed.

(** One precision and one recall per row. *)
Lemma loop_lengths rows : forall st st',
  for_each body st rows = Ok st' ->
  length (procedure_precision_scores st') =
    (length (procedure_precision_scores st) + length rows)%nat /\
  length (procedure_recall_scores st') =
    (length (procedure_recall_scores st) + length rows)%nat.
Proof.
  induction rows as [|row rows IH]; intros st st' Hrun; simpl in Hrun.
  - injection Hrun as <-. simpl. lia.
  - destruct (body st row) as [st1|] eqn:E; simpl in Hrun; [|discriminate].
    destruct (IH _ _ Hrun) as [-> ->].
    destruct (loop_body_row _ _ _ _ _ _ _ _ E)
      as (_ & _ & p & r & _ & _ & _ & -> & -> & _).
    rewrite !length_app. simpl. lia.
Qed.

Lemma loop_returns rows : forall st,
  Forall (extractable json_loads literal_eval py_repr variant_to_procedure) rows -> exists st', for_each body st rows = Ok st'.
Proof.
  induction rows as [|row rows IH]; intros st Hall; simpl; [eauto|].
  inversion Hall as [|? ? Hrow Hrest]; subst.
  assert (exists st1, body st row = Ok st1) as [st1 ->].
  { destruct (decide (original_variant row = retrieved_variant row)) as [Heq|Hne].
    - rewrite (loop_body_exact _ _ _ _ _ st row Heq). eauto.
    - destruct Hrow as [|[[Pe HPe] [Pr HPr]]]; [done|].
      destruct (loop_body_nonexact _ _ _ _ variant_to_condition st row Pe Pr Hne HPe HPr)
        as (st1 & -> & _). eauto. }
  simpl. by apply IH.
Qed.

(** A summary, once returned, holds the quotients of the final counters
    and sums by the number of rows. *)
Lemma analyze_group_Ok rows s :
  group rows = Ok s ->
  exists st,
    for_each body acc_init rows = Ok st /\ acc_inv st /\
    rows <> [] /\
    exact_accuracy s =
      (int_to_Q (exact_matches st) / int_to_Q (Z.of_nat (length rows)))%Q /\
    procedure_accuracy s =
      (int_to_Q (procedure_matches st) / int_to_Q (Z.of_nat (length rows)))%Q /\
    condition_accuracy s =
      (int_to_Q (condition_matches st) / int_to_Q (Z.of_nat (length rows)))%Q /\
    procedure_precision s =
      (py_sum (procedure_precision_scores st)
       / int_to_Q (Z.of_nat (length rows)))%Q /\
    procedure_recall s =
      (py_sum (procedure_recall_scores st)
       / int_to_Q (Z.of_nat (length rows)))%Q /\
    procedure_f1 s =
      (if Qlt_le_dec 0 (procedure_precision s + procedure_recall s)
       then (2 * (procedure_precision s * procedure_recall s)
             / (procedure_precision s + procedure_recall s))%Q
       else 0%Q).
Proof.
  unfold analyze_group. intros H.
  destruct (for_each body acc_init rows) as [st|] eqn:Hloop; simpl in H; [|discriminate].
  exists st. simpl. split; [reflexivity|].
  split; [eapply loop_inv; [apply acc_inv_init | exact Hloop]|].
  destruct (loop_lengths _ _ _ Hloop) as [Lp Lr]. simpl in Lp, Lr.
  unfold metrics in H.
  repeat match type of H with
    | (mbind _ (py_div ?a ?b)) = Ok _ =>
        let E := fresh "E" in let q := fresh "q" in
        destruct (py_div a b) as [q|] eqn:E; simpl in H; [|discriminate];
        apply py_div_Ok in E; destruct E as [? ->]
    end.
  injection H as <-. simpl. unfold len_Q. rewrite Lp, Lr.
  repeat split; try reflexivity.
  intros ->. simpl in *. match goal with H : ~ _ |- _ => by apply H end.
Qed.

Lemma analyze_group_returns rows :
  rows <> [] -> Forall (extractable json_loads literal_eval py_repr variant_to_procedure) rows -> exists s, group rows = Ok s.
Proof.
  intros Hne Hall. destruct (loop_returns rows acc_init Hall) as [st Hloop].
  unfold analyze_group. rewrite Hloop. simpl.
  destruct (loop_lengths _ _ _ Hloop) as [Lp Lr]. simpl in Lp, Lr.
  assert (Z.of_nat (length rows) <> 0) as Hn by (destruct rows; [done | simpl; lia]).
  unfold metrics, len_Q. rewrite Lp, Lr.
  rewrite !py_div_nonzero by (apply int_to_Q_nonzero, Hn). simpl. eauto.
Qed.

End BatchFacts.

(** ** The claims on the partial-credit scorer *)

(** C2. When the expected and the retrieved variant are equal, the loop
    body counts the row as an exact, a procedure and a condition match,
    appends precision 1 and recall 1, and returns at once: the result
    does not depend on the procedure or condition mappings, nor on the
    parsers, and no extraction is run. *)
Theorem exact_match_short_circuit
    (json_loads literal_eval : string -> option PyVal) (py_repr : PyVal -> string)
    (variant_to_procedure : gmap string Cell)
    (variant_to_condition : gmap string string)
    (st : Acc) (row : ResultRow) :
  original_variant row = retrieved_variant row ->
  loop_body json_loads literal_eval py_repr
            variant_to_procedure variant_to_condition st row =
    Ok {| exact_matches := exact_matches st + 1;
          procedure_matches := procedure_matches st + 1;
          condition_matches := condition_matches st + 1;
          procedure_precision_scores := procedure_precision_scores st ++ [1%Q];
          procedure_recall_scores := procedure_recall_scores st ++ [1%Q] |}.
Proof. apply loop_body_exact. Qed.

(** An exact row on a variant whose procedure cell cannot be extracted
    ([5] is not iterable) still scores 1 and 1. *)
Lemma exact_match_short_circuit_witness :
  original_variant row_bad = retrieved_variant row_bad /\
  procedures_of sample_json_loads sample_literal_eval sample_repr
                sample_procedures "bad" = Raise TypeError /\
  loop_body sample_json_loads sample_literal_eval sample_repr
            sample_procedures sample_conditions acc_init row_bad =
    Ok {| exact_matches := 1; procedure_matches := 1; condition_matches := 1;
          procedure_precision_scores := [1%Q];
          procedure_recall_scores := [1%Q] |}.
Proof.
  split; [reflexivity|]. split; [vm_compute; reflexivity|].
  apply (exact_match_short_circuit sample_json_loads sample_literal_eval sample_repr
           sample_procedures sample_conditions acc_init row_bad).
  reflexivity.
Defined.

(** C3. On a row that is not an exact match, with [Pe] and [Pr] the sets
    extracted for the expected and the retrieved variant: if either is
    empty the row appends precision 0 and recall 0 and is no procedure
    match; otherwise, with [I] their intersection, it appends
    [|I| / |Pr|] and [|I| / |Pe|] and is a procedure match exactly when
    [I] is not empty. *)
Theorem procedure_overlap_scores
    (json_loads literal_eval : string -> option PyVal) (py_repr : PyVal -> string)
    (variant_to_procedure : gmap string Cell)
    (variant_to_condition : gmap string string)
    (st : Acc) (row : ResultRow) (Pe Pr : gset PyKey) :
  original_variant row <> retrieved_variant row ->
  procedures_of json_loads literal_eval py_repr variant_to_procedure
                (original_variant row) = Ok Pe ->
  procedures_of json_loads literal_eval py_repr variant_to_procedure
                (retrieved_variant row) = Ok Pr ->
  exists st',
    loop_body json_loads literal_eval py_repr
              variant_to_procedure variant_to_condition st row = Ok st' /\
    exact_matches st' = exact_matches st /\
    (Pe = ∅ \/ Pr = ∅ ->
       procedure_matches st' = procedure_matches st /\
       procedure_precision_scores st' = procedure_precision_scores st ++ [0%Q] /\
       procedure_recall_scores st' = procedure_recall_scores st ++ [0%Q]) /\
    (Pe <> ∅ -> Pr <> ∅ ->
       (procedure_matches st' =
          if bool_decide (0 < size (Pe ∩ Pr))%nat
          then procedure_matches st + 1 else procedure_matches st) /\
       procedure_precision_scores st' =
         procedure_precision_scores st ++ [(card_Q (Pe ∩ Pr) / card_Q Pr)%Q] /\
       procedure_recall_scores st' =
         procedure_recall_scores st ++ [(card_Q (Pe ∩ Pr) / card_Q Pe)%Q]).
Proof.
  intros Hne HPe HPr.
  destruct (loop_body_nonexact json_loads literal_eval py_repr variant_to_procedure
              variant_to_condition st row Pe Pr Hne HPe HPr)
    as (st' & Hrun & He & Hm & _ & Hp & Hr).
  exists st'. split; [exact Hrun|]. split; [exact He|].
  rewrite Hm, Hp, Hr. unfold overlap. split.
  - intros Hempty.
    assert (set_truthy Pe && set_truthy Pr = false) as ->.
    { apply andb_false_iff. destruct Hempty as [->| ->]; [left | right]; reflexivity. }
    simpl. split; [lia | done].
  - intros He' Hr'.
    apply set_truthy_true in He', Hr'. rewrite He', Hr'. simpl.
    split; [|done].
    destruct (set_truthy (Pe ∩ Pr)) eqn:EI.
    + apply set_truthy_size in EI. by rewrite bool_decide_eq_true_2.
    + apply set_truthy_false in EI. rewrite EI, size_empty.
      rewrite bool_decide_eq_false_2 by lia. simpl. lia.
Qed.

(** The scenario of the specification: expected [{X, Y}] against
    retrieved [{X, Z}] is a procedure match with precision and recall
    one half. *)
Lemma procedure_overlap_scores_witness :
  exists st',
    loop_body sample_json_loads sample_literal_eval sample_repr
              sample_procedures sample_conditions acc_init row_AB = Ok st' /\
    exact_matches st' = 0 /\
    procedure_matches st' = 1 /\
    procedure_precision_scores st' = [(1 # 2)%Q] /\
    procedure_recall_scores st' = [(1 # 2)%Q].
Proof.
  assert (original_variant row_AB <> retrieved_variant row_AB) as Hne
    by (vm_compute; discriminate).
  assert (procedures_of sample_json_loads sample_literal_eval sample_repr
            sample_procedures (original_variant row_AB)
          = Ok {[ KStr "X"; KStr "Y" ]}) as HPe by (vm_compute; reflexivity).
  assert (procedures_of sample_json_loads sample_literal_eval sample_repr
            sample_procedures (retrieved_variant row_AB)
          = Ok {[ KStr "X"; KStr "Z" ]}) as HPr by (vm_compute; reflexivity).
  destruct (procedure_overlap_scores sample_json_loads sample_literal_eval sample_repr
              sample_procedures sample_conditions acc_init row_AB _ _ Hne HPe HPr)
    as (st' & Hrun & He & _ & Hfull).
  destruct Hfull as (Hm & Hp & Hr); [vm_compute; discriminate .. |].
  exists st'. split; [exact Hrun|]. split; [exact He|].
  split; [exact Hm|]. split; [exact Hp | exact Hr].
Defined.

(** C10. For the row a loop body has scored, being counted as a
    procedure match, having a positive precision and having a positive
    recall are equivalent two by two. *)
Theorem procedure_match_iff_positive_scores
    (json_loads literal_eval : string -> option PyVal) (py_repr : PyVal -> string)
    (variant_to_procedure : gmap string Cell)
    (variant_to_condition : gmap string string)
    (st st' : Acc) (row : ResultRow) :
  loop_body json_loads literal_eval py_repr
            variant_to_procedure variant_to_condition st row = Ok st' ->
  exists (procedure_match : bool) (precision recall : Q),
    procedure_matches st' = procedure_matches st + bump procedure_match /\
    procedure_precision_scores st' = procedure_precision_scores st ++ [precision] /\
    procedure_recall_scores st' = procedure_recall_scores st ++ [recall] /\
    (procedure_match = true <-> (0 < precision)%Q) /\
    (procedure_match = true <-> (0 < recall)%Q) /\
    ((0 < precision)%Q <-> (0 < recall)%Q).
Proof.
  intros Hrun.
  destruct (loop_body_row _ _ _ _ _ _ _ _ Hrun)
    as (e & m & p & r & _ & Hm & _ & Hp & Hr & _ & Hmp & Hmr & _).
  exists m, p, r. repeat split; try assumption; tauto.
Qed.

Lemma procedure_match_iff_positive_scores_witness :
  exists (procedure_match : bool) (precision recall : Q),
    1 = 0 + bump procedure_match /\
    [(1 # 2)%Q] = [] ++ [precision] /\
    [(1 # 2)%Q] = [] ++ [recall] /\
    (procedure_match = true <-> (0 < precision)%Q) /\
    (procedure_match = true <-> (0 < recall)%Q) /\
    ((0 < precision)%Q <-> (0 < recall)%Q).
Proof.
  apply (procedure_match_iff_positive_scores
           sample_json_loads sample_literal_eval sample_repr
           sample_procedures sample_conditions acc_init
           {| exact_matches := 0; procedure_matches := 1; condition_matches := 1;
              procedure_precision_scores := [(1 # 2)%Q];
              procedure_recall_scores := [(1 # 2)%Q] |}
           row_AB).
  vm_compute. reflexivity.
Defined.

(** ** The claims on the aggregated metrics *)

Lemma rows_sample_extractable :
  Forall (extractable sample_json_loads sample_literal_eval sample_repr
                      sample_procedures) rows_sample.
Proof.
  unfold rows_sample. constructor; [|constructor; [|constructor]].
  - right. split; eexists; vm_compute; reflexivity.
  - left. reflexivity.
Defined.

(** C4. For a batch that is not empty, a summary is returned as soon as
    the procedure sets of its non-exact rows can be extracted, and in
    every summary returned the procedure accuracy and the condition
    accuracy are at least the exact accuracy. *)
Theorem accuracy_relaxation
    (json_loads literal_eval : string -> option PyVal) (py_repr : PyVal -> string)
    (variant_to_procedure : gmap string Cell)
    (variant_to_condition : gmap string string)
    (rows : list ResultRow) :
  rows <> [] ->
  (Forall (extractable json_loads literal_eval py_repr variant_to_procedure) rows ->
   exists s, analyze_group json_loads literal_eval py_repr
               variant_to_procedure variant_to_condition rows = Ok s) /\
  (forall s,
     analyze_group json_loads literal_eval py_repr
       variant_to_procedure variant_to_condition rows = Ok s ->
     (exact_accuracy s <= procedure_accuracy s)%Q /\
     (exact_accuracy s <= condition_accuracy s)%Q).
Proof.
  intros Hne. split; [by apply analyze_group_returns|].
  intros s Hs.
  destruct (analyze_group_Ok _ _ _ _ _ _ _ Hs)
    as (st & _ & [_ Hp Hc _ _ _] & _ & -> & -> & -> & _).
  assert (0 < int_to_Q (Z.of_nat (length rows)))%Q as Hn.
  { apply int_to_Q_pos. destruct rows; [done | simpl; lia]. }
  split; apply Qdiv_le_mono; auto using int_to_Q_le.
Qed.

Lemma accuracy_relaxation_witness :
  rows_sample <> [] /\
  exists s,
    analyze_group sample_json_loads sample_literal_eval sample_repr
      sample_procedures sample_conditions rows_sample = Ok s /\
    (exact_accuracy s <= procedure_accuracy s)%Q /\
    (exact_accuracy s <= condition_accuracy s)%Q.
Proof.
  assert (rows_sample <> []) as Hne by discriminate.
  split; [exact Hne|].
  destruct (accuracy_relaxation sample_json_loads sample_literal_eval sample_repr
              sample_procedures sample_conditions rows_sample Hne) as [Hret Hle].
  destruct (Hret rows_sample_extractable) as [s Hs].
  exists s. split; [exact Hs | exact (Hle s Hs)].
Defined.



(** The sample batch, computed: one exact row and one row sharing one
    procedure out of two. *)
Example analyze_group_sample :
  exists s,
    analyze_group sample_json_loads sample_literal_eval sample_repr
      sample_procedures sample_conditions rows_sample = Ok s /\
    total_queries s = 2 /\
    (exact_accuracy s == 1 # 2)%Q /\
    (procedure_accuracy s == 1)%Q /\
    (condition_accuracy s == 1)%Q /\
    (procedure_precision s == 3 # 4)%Q /\
    (procedure_recall s == 3 # 4)%Q /\
    (procedure_f1 s == 3 # 4)%Q.
Proof. eexists. split; [vm_compute; reflexivity|]. vm_compute. tauto. Qed.

(** C8. On an empty batch the metrics divide by a zero total: the group
    analysis raises [ZeroDivisionError] and returns no summary, and so
    does the whole analysis when the results table is empty. *)
Theorem empty_batch_raises
    (json_loads literal_eval : string -> option PyVal) (py_repr : PyVal -> string)
    (variant_to_procedure : gmap string Cell)
    (variant_to_condition : gmap string string) :
  analyze_group json_loads literal_eval py_repr
    variant_to_procedure variant_to_condition [] = Raise ZeroDivisionError /\
  analyze_partial_credit json_loads literal_eval py_repr
    variant_to_procedure variant_to_condition [] = Raise ZeroDivisionError.
Proof. split; reflexivity. Qed.


(** ** The claims on procedure-set extraction *)

Section ExtractionFacts.

Variable json_loads : string -> option PyVal.
Variable literal_eval : string -> option PyVal.
Variable py_repr : PyVal -> string.

Local Abbreviation extract := (extract_procedures json_loads literal_eval py_repr).

(** A missing cell gives the empty set. *)
Lemma extract_nan : extract CNaN = Ok ∅.
Proof. reflexivity. Qed.

(** A text that neither parser accepts gives the empty set. *)
Lemma extract_unparsable s :
  json_loads s = None -> literal_eval s = None -> extract (CStr s) = Ok ∅.
Proof.
  intros H1 H2. unfold extract_procedures, safe_parse_json. by rewrite H1, H2.
Qed.

(** A bare string entry is added as it is. *)
Lemma extract_step_string proc_set s :
  extract_step py_repr proc_set (PStr s) = Ok ({[ KStr s ]} ∪ proc_set).
Proof. reflexivity. Qed.

(** A dict entry with neither field is added, as its string, only
    while the set built so far is empty ... *)
Lemma extract_step_fieldless_first d :
  dict_get d (KStr "code") = None -> dict_get d (KStr "name") = None ->
  extract_step py_repr ∅ (PDict d) = Ok {[ KStr (py_repr (PDict d)) ]}.
Proof.
  intros Hc Hn. unfold extract_step. rewrite Hc, Hn. simpl.
  assert (set_truthy ∅ = false) as -> by (by apply set_truthy_false).
  unfold set_add. simpl. f_equal. apply (right_id_L ∅ (∪)).
Qed.

(** ... and is dropped once an earlier entry has put something in it. *)
Lemma extract_step_fieldless_later proc_set d :
  proc_set <> ∅ ->
  dict_get d (KStr "code") = None -> dict_get d (KStr "name") = None ->
  extract_step py_repr proc_set (PDict d) = Ok proc_set.
Proof.
  intros Hne Hc Hn. unfold extract_step. rewrite Hc, Hn. simpl.
  apply set_truthy_true in Hne. by rewrite Hne.
Qed.

End ExtractionFacts.

(** C6. Extraction can raise: a text that parses to a number other than
    zero passes the emptiness test and is then iterated over, which
    raises [TypeError]. *)
Theorem extraction_raises_on_number
    (json_loads literal_eval : string -> option PyVal) (py_repr : PyVal -> string)
    (s : string) (z : Z) :
  json_loads s = Some (PInt z) -> z <> 0 ->
  extract_procedures json_loads literal_eval py_repr (CStr s) = Raise TypeError.
Proof.
  intros Hs Hz. unfold extract_procedures, safe_parse_json. rewrite Hs. simpl.
  apply Z.eqb_neq in Hz. by rewrite Hz.
Qed.

Lemma extraction_raises_on_number_witness :
  extract_procedures sample_json_loads sample_literal_eval sample_repr (CStr "5")
  = Raise TypeError.
Proof.
  apply (extraction_raises_on_number sample_json_loads sample_literal_eval
           sample_repr "5" 5); [reflexivity | discriminate].
Defined.

(** An unhashable [code] field raises as well, from [proc_set.add]. *)
Lemma extraction_raises_on_unhashable_code
    (json_loads literal_eval : string -> option PyVal) (py_repr : PyVal -> string)
    (s : string) (l : list PyVal) :
  json_loads s = Some (PList [PDict [(KStr "code", PList l)]]) ->
  extract_procedures json_loads literal_eval py_repr (CStr s) = Raise TypeError.
Proof.
  intros Hs. unfold extract_procedures, safe_parse_json. by rewrite Hs.
Qed.

(** C7. On the list [[{"code": "A"}, {"other": "x"}]] extraction returns
    the one identifier [A]: the second entry, which has neither [code]
    nor [name], is not in the set. *)
Theorem fieldless_entry_after_code_dropped
    (json_loads literal_eval : string -> option PyVal) (py_repr : PyVal -> string)
    (s : string) :
  json_loads s = Some (PList [PDict [(KStr "code", PStr "A")];
                              PDict [(KStr "other", PStr "x")]]) ->
  extract_procedures json_loads literal_eval py_repr (CStr s) = Ok {[ KStr "A" ]} /\
  (py_repr (PDict [(KStr "other", PStr "x")]) <> "A" ->
   KStr (py_str py_repr (PDict [(KStr "other", PStr "x")])) ∉
     ({[ KStr "A" ]} : gset PyKey)).
Proof.
  intros Hs. split.
  - unfold extract_procedures, safe_parse_json. rewrite Hs.
    cbn [truthy negb py_iter mbind result_bind rbind for_each].
    change (extract_step py_repr ∅ (PDict [(KStr "code", PStr "A")]))
      with (Ok ({[ KStr "A" ]} ∪ ∅ : gset PyKey)).
    assert (({[ KStr "A" ]} ∪ ∅ : gset PyKey) = {[ KStr "A" ]}) as ->
      by apply (right_id_L ∅ (∪)).
    unfold mbind, result_bind. cbn [rbind].
    rewrite extract_step_fieldless_later; [reflexivity | set_solver | reflexivity ..].
  - intros Hne Hin. apply elem_of_singleton in Hin. simpl in Hin. congruence.
Qed.

Lemma fieldless_entry_after_code_dropped_witness :
  extract_procedures sample_json_loads sample_literal_eval sample_repr
    (CStr json_fieldless) = Ok {[ KStr "A" ]} /\
  KStr (py_str sample_repr (PDict [(KStr "other", PStr "x")])) ∉
    ({[ KStr "A" ]} : gset PyKey).
Proof.
  destruct (fieldless_entry_after_code_dropped sample_json_loads sample_literal_eval
              sample_repr json_fieldless) as [Hrun Hout]; [reflexivity|].
  split; [exact Hrun|]. apply Hout. vm_compute. discriminate.
Defined.

(** ** The claim on the text handed to the encoder *)

Lemma string_length_app (s1 s2 : string) :
  String.length (s1 +:+ s2) = (String.length s1 + String.length s2)%nat.
Proof. induction s1 as [|c s1 IH]; simpl; [reflexivity | by rewrite IH]. Qed.

(** The text embedded for a catalog row is 33 characters longer than its
    condition and variant together. *)
Lemma combined_text_length (row : Embed.AcrRow) :
  String.length (Embed.combined_text row) =
  (33 + String.length (Embed.Condition row) + String.length (Embed.Variant row))%nat.
Proof.
  unfold Embed.combined_text. rewrite !string_length_app. simpl. lia.
Qed.

(** Against C1 as stated. With an encoder that hands its input back, the catalog row and the
    query made from the same row reach the encoder as different texts. *)
Lemma build_and_query_texts_differ :
  Embed.e_embedding string (Embed.embed_row string (fun text => text) row_device)
    = "Condition: Pacemaker | Clinical Scenario: Device selection" /\
  Embed.query_embedding string (fun text => text) row_device = "Device selection" /\
  Embed.search_query_embedding string (fun text => text) "Device selection"
    = "Device selection" /\
  ~ (forall row : Embed.AcrRow,
       Embed.e_embedding string (Embed.embed_row string (fun text => text) row)
       = Embed.query_embedding string (fun text => text) row).
Proof.
  repeat split; try reflexivity.
  intros H. specialize (H row_device). discriminate H.
Qed.

(** C1, as the code has it. The build path encodes the template
    [Condition: <condition> | Clinical Scenario: <variant>] and stores
    that text; the query paths (the search, the exact-match evaluator
    and the step of the three-description evaluator) encode the query
    text unchanged; for no catalog row do the two texts coincide when
    the row is queried by its variant. *)
Theorem build_templated_query_raw
    (Vec : Type) (encode : string -> Vec) (row : Embed.AcrRow) (query : string) :
  Embed.e_combined_text Vec (Embed.embed_row Vec encode row) =
    "Condition: " +:+ Embed.Condition row +:+ " | Clinical Scenario: "
                  +:+ Embed.Variant row /\
  Embed.e_embedding Vec (Embed.embed_row Vec encode row) =
    encode (Embed.e_combined_text Vec (Embed.embed_row Vec encode row)) /\
  Embed.search_query_embedding Vec encode query = encode query /\
  Embed.query_embedding Vec encode row = encode (Embed.Variant row) /\
  (forall fetch_nearest py_round desc_type st idx_row,
     Desc3.eval_step Vec encode fetch_nearest py_round desc_type st idx_row =
     Desc3.eval_step string (fun synthetic_desc => synthetic_desc)
       (fun synthetic_desc => fetch_nearest (encode synthetic_desc))
       py_round desc_type st idx_row) /\
  Embed.e_combined_text Vec (Embed.embed_row Vec encode row) <> Embed.query_text row.
Proof.
  do 4 (split; [reflexivity|]). split; [by intros ? ? ? ? []|].
  simpl. intros H.
  apply (f_equal String.length) in H. rewrite combined_text_length in H.
  unfold Embed.query_text in H. lia.
Qed.

(** ** The claim on queries without a result *)

Section EvaluatorFacts.

Variable Vec : Type.
Variable encode : string -> Vec.
Variable fetch_nearest : Vec -> option (string * string * Q).
Variable py_round : Q -> Z -> Q.
Variable desc_type : Desc3.DescType.

Local Abbreviation step := (Desc3.eval_step Vec encode fetch_nearest py_round desc_type).

(** A query without a result only moves [total_queries]. *)
Lemma eval_step_no_result st idx row synthetic_desc :
  Desc3.descriptions row desc_type = CStr synthetic_desc ->
  fetch_nearest (encode synthetic_desc) = None ->
  step st (idx, row) =
    {| Desc3.correct_matches := Desc3.correct_matches st;
       Desc3.total_queries := Desc3.total_queries st + 1;
       Desc3.distances := Desc3.distances st;
       Desc3.all_results := Desc3.all_results st |}.
Proof. intros Hd Hf. unfold Desc3.eval_step. by rewrite Hd, Hf. Qed.

(** A missing description moves nothing. *)
Lemma eval_step_missing st idx row :
  Desc3.descriptions row desc_type = CNaN -> step st (idx, row) = st.
Proof. intros Hd. unfold Desc3.eval_step. by rewrite Hd. Qed.

Lemma eval_step_fields st idx_row :
  Desc3.total_queries (step st idx_row) =
    Desc3.total_queries st + bump (issued desc_type idx_row) /\
  Desc3.correct_matches (step st idx_row) =
    Desc3.correct_matches st + bump (correct Vec encode fetch_nearest desc_type idx_row) /\
  Desc3.distances (step st idx_row) =
    Desc3.distances st ++ option_list (distance_of Vec encode fetch_nearest desc_type idx_row) /\
  Desc3.all_results (step st idx_row) =
    Desc3.all_results st ++ option_list (detail_of Vec encode fetch_nearest py_round desc_type idx_row).
Proof.
  destruct idx_row as [idx row].
  unfold Desc3.eval_step, issued, correct, distance_of, detail_of, answer. simpl.
  destruct (Desc3.descriptions row desc_type) as [|s]; simpl.
  - rewrite !app_nil_r. repeat split; lia.
  - destruct (fetch_nearest (encode s)) as [[[c v] d]|]; simpl.
    + repeat split; try lia. by destruct (bool_decide _); simpl; lia.
    + rewrite !app_nil_r. repeat split; lia.
Qed.

Lemma eval_fold_fields irows : forall st,
  let st' := fold_left step irows st in
  Desc3.total_queries st' = Desc3.total_queries st + count (issued desc_type) irows /\
  Desc3.correct_matches st' = Desc3.correct_matches st + count (correct Vec encode fetch_nearest desc_type) irows /\
  Desc3.distances st' = Desc3.distances st ++ omap (distance_of Vec encode fetch_nearest desc_type) irows /\
  Desc3.all_results st' = Desc3.all_results st ++ omap (detail_of Vec encode fetch_nearest py_round desc_type) irows.
Proof.
  induction irows as [|x irows IH]; intros st; simpl.
  - rewrite !app_nil_r. repeat split; lia.
  - destruct (IH (step st x)) as (-> & -> & -> & ->).
    destruct (eval_step_fields st x) as (-> & -> & -> & ->).
    rewrite <- !app_assoc.
    repeat split; try lia.
    + by destruct (distance_of _ _ _ _ x).
    + by destruct (detail_of _ _ _ _ _ x).
Qed.

(** Every row with a description is a query issued. *)
Lemma eval_loop_total all_results0 df :
  Desc3.total_queries
    (Desc3.eval_loop Vec encode fetch_nearest py_round desc_type all_results0 df) =
  count (issued desc_type) (Desc3.iterrows df).
Proof.
  unfold Desc3.eval_loop.
  destruct (eval_fold_fields (Desc3.iterrows df)
              {| Desc3.correct_matches := 0; Desc3.total_queries := 0;
                 Desc3.distances := []; Desc3.all_results := all_results0 |})
    as (Ht & _).
  simpl in Ht. by rewrite Ht.
Qed.

End EvaluatorFacts.



(** * Further properties of the code *)

(** ** Scores of one row *)

Lemma card_Q_le (s t : gset PyKey) : s ⊆ t -> (card_Q s <= card_Q t)%Q.
Proof.
  intros H. unfold card_Q. rewrite <- Zle_Qle.
  apply inj_le, subseteq_size, H.
Qed.

Lemma Qdiv_le_1 (a b : Q) : (0 < b)%Q -> (a <= b)%Q -> (a / b <= 1)%Q.
Proof.
  intros Hb Hab. apply Qle_shift_div_r; [exact Hb|]. by rewrite Qmult_1_l.
Qed.

Lemma Qdiv_eq_1 (a b : Q) : (0 < b)%Q -> ((a / b == 1)%Q <-> (a == b)%Q).
Proof.
  intros Hb. assert (~ (b == 0)%Q) as Hnz by lra. split; intros H.
  - rewrite <- (Qmult_div_r a b Hnz). rewrite H. ring.
  - rewrite H. field. exact Hnz.
Qed.

(** The scores read off two extracted sets lie between 0 and 1. *)
Lemma overlap_unit (Pe Pr : gset PyKey) :
  (0 <= (overlap Pe Pr).1.2 <= 1)%Q /\ (0 <= (overlap Pe Pr).2 <= 1)%Q.
Proof.
  unfold overlap.
  destruct (set_truthy Pe) eqn:Ee, (set_truthy Pr) eqn:Er; simpl; try lra.
  apply set_truthy_size in Ee, Er.
  assert (0 < card_Q Pe)%Q by by apply card_Q_pos.
  assert (0 < card_Q Pr)%Q by by apply card_Q_pos.
  repeat split;
    try (apply Qdiv_nonneg; [apply card_Q_nonneg | assumption]);
    apply Qdiv_le_1; try assumption; apply card_Q_le.
  - apply intersection_subseteq_r.
  - apply intersection_subseteq_l.
Qed.

Lemma overlap_swap (Pe Pr : gset PyKey) :
  (overlap Pr Pe).1.1 = (overlap Pe Pr).1.1 /\
  (overlap Pr Pe).1.2 = (overlap Pe Pr).2 /\
  (overlap Pr Pe).2 = (overlap Pe Pr).1.2.
Proof.
  unfold overlap. rewrite (comm_L (∩) Pr Pe).
  destruct (set_truthy Pe), (set_truthy Pr); simpl; auto.
Qed.

Lemma str_truthy_true (s : string) : str_truthy s = true <-> s <> EmptyString.
Proof.
  unfold str_truthy. rewrite negb_true_iff. split.
  - intros H ->. by rewrite String.eqb_refl in H.
  - intros H. by apply String.eqb_neq.
Qed.

Lemma same_condition_true v2c o r :
  same_condition v2c o r = true <->
  exists c, v2c !! o = Some c /\ v2c !! r = Some c /\ c <> EmptyString.
Proof.
  unfold same_condition.
  destruct (v2c !! o) as [oc|], (v2c !! r) as [rc|]; split;
    try discriminate; try (intros (c & ? & ? & ?); discriminate).
  - rewrite !andb_true_iff, bool_decide_eq_true, !str_truthy_true.
    intros [[Ho _] ->]. eauto.
  - intros (c & [= ->] & [= ->] & Hc).
    rewrite !andb_true_iff, bool_decide_eq_true, !str_truthy_true. auto.
Qed.

Lemma same_condition_sym v2c o r : same_condition v2c r o = same_condition v2c o r.
Proof.
  unfold same_condition.
  destruct (v2c !! o) as [oc|], (v2c !! r) as [rc|]; try reflexivity.
  rewrite (andb_comm (str_truthy rc)). f_equal.
  apply bool_decide_ext. split; congruence.
Qed.

Section RowFacts.

Variable json_loads : string -> option PyVal.
Variable literal_eval : string -> option PyVal.
Variable py_repr : PyVal -> string.
Variable variant_to_procedure : gmap string Cell.
Variable variant_to_condition : gmap string string.

Local Abbreviation procs :=
  (procedures_of json_loads literal_eval py_repr variant_to_procedure).
Local Abbreviation body :=
  (loop_body json_loads literal_eval py_repr
             variant_to_procedure variant_to_condition).

(** The state after a non-exact row, field by field. *)
Lemma loop_body_nonexact_fields st row Pe Pr :
  original_variant row <> retrieved_variant row ->
  procs (original_variant row) = Ok Pe ->
  procs (retrieved_variant row) = Ok Pr ->
  body st row =
    Ok {| exact_matches := exact_matches st;
          procedure_matches := procedure_matches st + bump (overlap Pe Pr).1.1;
          condition_matches :=
            condition_matches st +
            bump (same_condition variant_to_condition
                    (original_variant row) (retrieved_variant row));
          procedure_precision_scores :=
            procedure_precision_scores st ++ [(overlap Pe Pr).1.2];
          procedure_recall_scores :=
            procedure_recall_scores st ++ [(overlap Pe Pr).2] |}.
Proof.
  intros Hne HPe HPr. unfold loop_body.
  rewrite decide_False by exact Hne. rewrite HPe, HPr. simpl.
  unfold overlap, same_condition.
  destruct (set_truthy Pe) eqn:Ee, (set_truthy Pr) eqn:Er; simpl;
    repeat match goal with
      | |- context [match ?x with _ => _ end] => destruct x; simpl
      end;
    rewrite ?Z.add_0_r; reflexivity.
Qed.

End RowFacts.

(** ** Further properties of one scored row *)

(** X1. Exchanging the expected and the retrieved variant of a non-exact row
    exchanges its precision and its recall and leaves the three match
    counters as they are. *)
Theorem swapped_row_swaps_scores
    (json_loads literal_eval : string -> option PyVal) (py_repr : PyVal -> string)
    (variant_to_procedure : gmap string Cell)
    (variant_to_condition : gmap string string)
    (st : Acc) (row : ResultRow) (Pe Pr : gset PyKey) :
  original_variant row <> retrieved_variant row ->
  procedures_of json_loads literal_eval py_repr variant_to_procedure
                (original_variant row) = Ok Pe ->
  procedures_of json_loads literal_eval py_repr variant_to_procedure
                (retrieved_variant row) = Ok Pr ->
  exists st1 st2 precision recall,
    loop_body json_loads literal_eval py_repr
              variant_to_procedure variant_to_condition st row = Ok st1 /\
    loop_body json_loads literal_eval py_repr
              variant_to_procedure variant_to_condition st (swap_row row) = Ok st2 /\
    procedure_precision_scores st1 = procedure_precision_scores st ++ [precision] /\
    procedure_recall_scores st1 = procedure_recall_scores st ++ [recall] /\
    procedure_precision_scores st2 = procedure_precision_scores st ++ [recall] /\
    procedure_recall_scores st2 = procedure_recall_scores st ++ [precision] /\
    exact_matches st2 = exact_matches st1 /\
    procedure_matches st2 = procedure_matches st1 /\
    condition_matches st2 = condition_matches st1.
Proof.
  intros Hne HPe HPr.
  assert (original_variant (swap_row row) <> retrieved_variant (swap_row row)) as Hne'
    by (simpl; congruence).
  rewrite (loop_body_nonexact_fields _ _ _ _ variant_to_condition st row Pe Pr Hne HPe HPr).
  rewrite (loop_body_nonexact_fields _ _ _ _ variant_to_condition st (swap_row row)
             Pr Pe Hne' HPr HPe).
  destruct (overlap_swap Pe Pr) as (Hm & Hp & Hr).
  do 2 eexists. exists (overlap Pe Pr).1.2, (overlap Pe Pr).2.
  split; [reflexivity|]. split; [reflexivity|]. simpl.
  rewrite Hm, Hp, Hr, same_condition_sym. repeat split.
Qed.

Lemma swapped_row_swaps_scores_witness :
  exists st1 st2,
    loop_body sample_json_loads sample_literal_eval sample_repr
              sample_procedures sample_conditions acc_init row_AB = Ok st1 /\
    loop_body sample_json_loads sample_literal_eval sample_repr
              sample_procedures sample_conditions acc_init (swap_row row_AB) = Ok st2 /\
    procedure_precision_scores st2 = procedure_recall_scores st1 /\
    procedure_recall_scores st2 = procedure_precision_scores st1 /\
    procedure_matches st2 = procedure_matches st1.
Proof.
  destruct (swapped_row_swaps_scores sample_json_loads sample_literal_eval sample_repr
              sample_procedures sample_conditions acc_init row_AB
              {[ KStr "X"; KStr "Y" ]} {[ KStr "X"; KStr "Z" ]})
    as (st1 & st2 & p & r & H1 & H2 & Hp1 & Hr1 & Hp2 & Hr2 & _ & Hm & _);
    [vm_compute; discriminate | vm_compute; reflexivity | vm_compute; reflexivity |].
  exists st1, st2. rewrite Hp1, Hr1, Hp2, Hr2. auto.
Defined.

(** X2. On a non-exact row the condition counter moves exactly when both
    variants are in the condition mapping under one and the same
    condition that is not the empty string; a variant missing from the
    mapping is no match and raises nothing. *)
Theorem condition_match_rule
    (json_loads literal_eval : string -> option PyVal) (py_repr : PyVal -> string)
    (variant_to_procedure : gmap string Cell)
    (variant_to_condition : gmap string string)
    (st : Acc) (row : ResultRow) (Pe Pr : gset PyKey) :
  original_variant row <> retrieved_variant row ->
  procedures_of json_loads literal_eval py_repr variant_to_procedure
                (original_variant row) = Ok Pe ->
  procedures_of json_loads literal_eval py_repr variant_to_procedure
                (retrieved_variant row) = Ok Pr ->
  exists st',
    loop_body json_loads literal_eval py_repr
              variant_to_procedure variant_to_condition st row = Ok st' /\
    ((exists c, variant_to_condition !! original_variant row = Some c /\
                variant_to_condition !! retrieved_variant row = Some c /\
                c <> EmptyString) ->
     condition_matches st' = condition_matches st + 1) /\
    (~ (exists c, variant_to_condition !! original_variant row = Some c /\
                  variant_to_condition !! retrieved_variant row = Some c /\
                  c <> EmptyString) ->
     condition_matches st' = condition_matches st) /\
    (variant_to_condition !! original_variant row = None \/
     variant_to_condition !! retrieved_variant row = None ->
     condition_matches st' = condition_matches st).
Proof.
  intros Hne HPe HPr.
  rewrite (loop_body_nonexact_fields _ _ _ _ variant_to_condition st row Pe Pr Hne HPe HPr).
  eexists. split; [reflexivity|]. simpl.
  destruct (same_condition variant_to_condition (original_variant row)
              (retrieved_variant row)) eqn:E.
  - apply same_condition_true in E. simpl.
    split; [reflexivity|]. split; [intros H; by destruct H|].
    destruct E as (c & Ho & Hr & _). intros [H|H]; congruence.
  - assert (~ exists c, variant_to_condition !! original_variant row = Some c /\
                        variant_to_condition !! retrieved_variant row = Some c /\
                        c <> EmptyString) as Hno.
    { intros H. apply same_condition_true in H. congruence. }
    simpl. split; [intros H; by destruct Hno|]. split; intros _; lia.
Qed.

Lemma condition_match_rule_witness :
  exists st',
    loop_body sample_json_loads sample_literal_eval sample_repr
              sample_procedures sample_conditions acc_init row_AB = Ok st' /\
    condition_matches st' = 1.
Proof.
  destruct (condition_match_rule sample_json_loads sample_literal_eval sample_repr
              sample_procedures sample_conditions acc_init row_AB
              {[ KStr "X"; KStr "Y" ]} {[ KStr "X"; KStr "Z" ]})
    as (st' & Hrun & Hyes & _);
    [vm_compute; discriminate | vm_compute; reflexivity | vm_compute; reflexivity |].
  exists st'. split; [exact Hrun|]. apply Hyes.
  exists "Chest pain"%string. repeat split; vm_compute; [reflexivity .. | discriminate].
Defined.

Lemma card_Q_eq (s t : gset PyKey) : (card_Q s == card_Q t)%Q <-> size s = size t.
Proof.
  unfold card_Q, Qeq. simpl. lia.
Qed.

Lemma inter_size_r (Pe Pr : gset PyKey) : size (Pe ∩ Pr) = size Pr <-> Pr ⊆ Pe.
Proof.
  split; intros H.
  - assert (Pe ∩ Pr = Pr) as E.
    { apply set_subseteq_size_eq; [apply intersection_subseteq_r | lia]. }
    rewrite <- E. apply intersection_subseteq_l.
  - f_equal. apply leibniz_equiv. intros x. rewrite elem_of_intersection.
    split; [tauto|]. intros Hx. split; [by apply H | done].
Qed.

(** X3. On a non-exact row with two non-empty procedure sets, the precision
    is 1 exactly when every retrieved procedure is an expected one, and
    the recall is 1 exactly when every expected procedure was retrieved. *)
Theorem full_score_iff_subset
    (json_loads literal_eval : string -> option PyVal) (py_repr : PyVal -> string)
    (variant_to_procedure : gmap string Cell)
    (variant_to_condition : gmap string string)
    (st : Acc) (row : ResultRow) (Pe Pr : gset PyKey) :
  original_variant row <> retrieved_variant row ->
  procedures_of json_loads literal_eval py_repr variant_to_procedure
                (original_variant row) = Ok Pe ->
  procedures_of json_loads literal_eval py_repr variant_to_procedure
                (retrieved_variant row) = Ok Pr ->
  Pe <> ∅ -> Pr <> ∅ ->
  exists st' precision recall,
    loop_body json_loads literal_eval py_repr
              variant_to_procedure variant_to_condition st row = Ok st' /\
    procedure_precision_scores st' = procedure_precision_scores st ++ [precision] /\
    procedure_recall_scores st' = procedure_recall_scores st ++ [recall] /\
    ((precision == 1)%Q <-> Pr ⊆ Pe) /\
    ((recall == 1)%Q <-> Pe ⊆ Pr).
Proof.
  intros Hne HPe HPr He Hr.
  rewrite (loop_body_nonexact_fields _ _ _ _ variant_to_condition st row Pe Pr Hne HPe HPr).
  do 3 eexists. split; [reflexivity|]. simpl.
  split; [reflexivity|]. split; [reflexivity|].
  unfold overlap. apply set_truthy_true in He as He', Hr as Hr'.
  rewrite He', Hr'. simpl.
  apply set_truthy_size in He', Hr'.
  rewrite !Qdiv_eq_1 by (by apply card_Q_pos).
  rewrite !card_Q_eq. split; [apply inter_size_r|].
  rewrite (comm_L (∩) Pe Pr). apply inter_size_r.
Qed.

Lemma full_score_iff_subset_witness :
  exists st' precision recall,
    loop_body sample_json_loads sample_literal_eval sample_repr
              sample_procedures sample_conditions acc_init row_AB = Ok st' /\
    procedure_precision_scores st' = [] ++ [precision] /\
    procedure_recall_scores st' = [] ++ [recall] /\
    ((precision == 1)%Q <->
     ({[ KStr "X"; KStr "Z" ]} : gset PyKey) ⊆ {[ KStr "X"; KStr "Y" ]}) /\
    ((recall == 1)%Q <->
     ({[ KStr "X"; KStr "Y" ]} : gset PyKey) ⊆ {[ KStr "X"; KStr "Z" ]}).
Proof.
  apply (full_score_iff_subset sample_json_loads sample_literal_eval sample_repr
           sample_procedures sample_conditions acc_init row_AB
           {[ KStr "X"; KStr "Y" ]} {[ KStr "X"; KStr "Z" ]});
    [vm_compute; discriminate | vm_compute; reflexivity | vm_compute; reflexivity
    | vm_compute; discriminate | vm_compute; discriminate].
Defined.

(** X4. A variant that is not in the procedure mapping is read as the text
    [[]]: when that text parses to the empty list, a non-exact row with
    such a variant on either side scores precision 0 and recall 0 and
    is no procedure match, whatever the other variant's procedures. *)
Theorem unknown_variant_scores_zero
    (json_loads literal_eval : string -> option PyVal) (py_repr : PyVal -> string)
    (variant_to_procedure : gmap string Cell)
    (variant_to_condition : gmap string string)
    (st : Acc) (row : ResultRow) :
  json_loads "[]" = Some (PList []) ->
  original_variant row <> retrieved_variant row ->
  (variant_to_procedure !! original_variant row = None /\
   (exists Pr, procedures_of json_loads literal_eval py_repr variant_to_procedure
                 (retrieved_variant row) = Ok Pr)) \/
  (variant_to_procedure !! retrieved_variant row = None /\
   (exists Pe, procedures_of json_loads literal_eval py_repr variant_to_procedure
                 (original_variant row) = Ok Pe)) ->
  exists st',
    loop_body json_loads literal_eval py_repr
              variant_to_procedure variant_to_condition st row = Ok st' /\
    procedure_matches st' = procedure_matches st /\
    procedure_precision_scores st' = procedure_precision_scores st ++ [0%Q] /\
    procedure_recall_scores st' = procedure_recall_scores st ++ [0%Q].
Proof.
  intros Hjson Hne Hcase.
  assert (forall v, variant_to_procedure !! v = None ->
            procedures_of json_loads literal_eval py_repr variant_to_procedure v = Ok ∅)
    as Hmissing.
  { intros v Hv. unfold procedures_of. rewrite Hv. simpl.
    unfold extract_procedures, safe_parse_json. by rewrite Hjson. }
  destruct Hcase as [[Ho [Pr HPr]] | [Hr [Pe HPe]]].
  - rewrite (loop_body_nonexact_fields _ _ _ _ variant_to_condition st row ∅ Pr
               Hne (Hmissing _ Ho) HPr).
    eexists. split; [reflexivity|]. simpl. unfold overlap.
    assert (set_truthy ∅ = false) as -> by (by apply set_truthy_false).
    simpl. split; [lia | done].
  - rewrite (loop_body_nonexact_fields _ _ _ _ variant_to_condition st row Pe ∅
               Hne HPe (Hmissing _ Hr)).
    eexists. split; [reflexivity|]. simpl. unfold overlap.
    assert (set_truthy ∅ = false) as -> by (by apply set_truthy_false).
    rewrite andb_false_r. simpl. split; [lia | done].
Qed.

Lemma unknown_variant_scores_zero_witness :
  exists st',
    loop_body sample_json_loads sample_literal_eval sample_repr
              sample_procedures sample_conditions acc_init row_AC = Ok st' /\
    procedure_matches st' = 0 /\
    procedure_precision_scores st' = [0%Q] /\
    procedure_recall_scores st' = [0%Q].
Proof.
  apply (unknown_variant_scores_zero sample_json_loads sample_literal_eval sample_repr
           sample_procedures sample_conditions acc_init row_AC);
    [reflexivity | vm_compute; discriminate |].
  right. split; [vm_compute; reflexivity|].
  eexists. vm_compute. reflexivity.
Defined.

(** ** Further properties of a batch *)

Section SummaryFacts.

Variable json_loads : string -> option PyVal.
Variable literal_eval : string -> option PyVal.
Variable py_repr : PyVal -> string.
Variable variant_to_procedure : gmap string Cell.
Variable variant_to_condition : gmap string string.

Local Abbreviation procs :=
  (procedures_of json_loads literal_eval py_repr variant_to_procedure).
Local Abbreviation body :=
  (loop_body json_loads literal_eval py_repr
             variant_to_procedure variant_to_condition).
Local Abbreviation group :=
  (analyze_group json_loads literal_eval py_repr
                 variant_to_procedure variant_to_condition).

(** One row moves each counter by at most one and each sum of scores by
    at most 1. *)
Lemma loop_body_step_bounds st row st' :
  body st row = Ok st' ->
  procedure_matches st' <= procedure_matches st + 1 /\
  condition_matches st' <= condition_matches st + 1 /\
  (py_sum (procedure_precision_scores st')
     <= py_sum (procedure_precision_scores st) + 1)%Q /\
  (py_sum (procedure_recall_scores st')
     <= py_sum (procedure_recall_scores st) + 1)%Q.
Proof.
  intros H. destruct (loop_body_cases _ _ _ _ _ _ _ _ H)
    as [Heq | (Hne & Pe & Pr & HPe & HPr)].
  - rewrite (loop_body_exact _ _ _ _ _ st row Heq) in H. injection H as <-.
    simpl. rewrite !py_sum_snoc. repeat split; try lia; lra.
  - rewrite (loop_body_nonexact_fields _ _ _ _ variant_to_condition st row Pe Pr
               Hne HPe HPr) in H.
    injection H as <-. simpl. rewrite !py_sum_snoc.
    destruct (overlap_unit Pe Pr) as [[_ Hp] [_ Hr]].
    repeat split; try lra.
    + destruct (overlap Pe Pr).1.1; simpl; lia.
    + destruct (same_condition _ _ _); simpl; lia.
Qed.

Lemma loop_bounds rows : forall st st',
  for_each body st rows = Ok st' ->
  procedure_matches st' <= procedure_matches st + Z.of_nat (length rows) /\
  condition_matches st' <= condition_matches st + Z.of_nat (length rows) /\
  (py_sum (procedure_precision_scores st')
     <= py_sum (procedure_precision_scores st)
        + int_to_Q (Z.of_nat (length rows)))%Q /\
  (py_sum (procedure_recall_scores st')
     <= py_sum (procedure_recall_scores st)
        + int_to_Q (Z.of_nat (length rows)))%Q.
Proof.
  induction rows as [|row rows IH]; intros st st' Hrun; simpl in Hrun.
  - injection Hrun as <-.
    change (int_to_Q (Z.of_nat (length (@nil ResultRow)))) with 0%Q.
    simpl. repeat split; try lia; lra.
  - destruct (body st row) as [st1|] eqn:E; simpl in Hrun; [|discriminate].
    destruct (IH _ _ Hrun) as (Hm & Hc & Hp & Hr).
    destruct (loop_body_step_bounds _ _ _ E) as (Hm1 & Hc1 & Hp1 & Hr1).
    assert (int_to_Q (Z.of_nat (length (row :: rows)))
            == int_to_Q (Z.of_nat (length rows)) + 1)%Q as Hlen.
    { unfold int_to_Q. rewrite <- (inject_Z_plus _ 1). simpl length.
      by rewrite Nat2Z.inj_succ. }
    rewrite Hlen. simpl length. repeat split; try lia; lra.
Qed.

(** The counters a returned summary carries. *)
Lemma analyze_group_counts rows s :
  group rows = Ok s ->
  exists st,
    for_each body acc_init rows = Ok st /\
    total_queries s = Z.of_nat (length rows) /\
    sum_exact_matches s = exact_matches st /\
    sum_procedure_matches s = procedure_matches st /\
    sum_condition_matches s = condition_matches st.
Proof.
  unfold analyze_group. intros H.
  destruct (for_each body acc_init rows) as [st|] eqn:Hloop; simpl in H; [|discriminate].
  exists st. split; [reflexivity|]. unfold metrics in H.
  repeat match type of H with
    | (mbind _ (py_div ?a ?b)) = Ok _ =>
        destruct (py_div a b); simpl in H; [|discriminate]
    end.
  injection H as <-. simpl. auto.
Qed.

End SummaryFacts.

(** X5. In every summary returned, [total_queries] is the number of rows of
    the batch and the counts are ordered: exact matches are at most the
    procedure matches and at most the condition matches, and neither of
    these exceeds the total. *)
Theorem summary_counts_ordered
    (json_loads literal_eval : string -> option PyVal) (py_repr : PyVal -> string)
    (variant_to_procedure : gmap string Cell)
    (variant_to_condition : gmap string string)
    (rows : list ResultRow) (s : Summary) :
  analyze_group json_loads literal_eval py_repr
    variant_to_procedure variant_to_condition rows = Ok s ->
  total_queries s = Z.of_nat (length rows) /\
  0 < total_queries s /\
  0 <= sum_exact_matches s /\
  sum_exact_matches s <= sum_procedure_matches s <= total_queries s /\
  sum_exact_matches s <= sum_condition_matches s <= total_queries s.
Proof.
  intros Hs.
  destruct (analyze_group_counts _ _ _ _ _ _ _ Hs) as (st & Hloop & -> & -> & -> & ->).
  destruct (analyze_group_Ok _ _ _ _ _ _ _ Hs) as (st0 & Hloop0 & Hinv & Hne & _).
  rewrite Hloop in Hloop0. injection Hloop0 as <-.
  destruct Hinv as [H0 Hp Hc _ _ _].
  destruct (loop_bounds _ _ _ _ _ _ _ _ Hloop) as (Hm & Hcm & _). simpl in Hm, Hcm.
  split; [reflexivity|]. split; [destruct rows; [done | simpl; lia]|]. lia.
Qed.

Lemma summary_counts_ordered_witness :
  exists s,
    analyze_group sample_json_loads sample_literal_eval sample_repr
      sample_procedures sample_conditions rows_sample = Ok s /\
    total_queries s = 2 /\ sum_exact_matches s = 1 /\
    sum_exact_matches s <= sum_procedure_matches s <= total_queries s /\
    sum_exact_matches s <= sum_condition_matches s <= total_queries s.
Proof.
  eexists. split; [vm_compute; reflexivity|].
  match goal with
  | |- context [total_queries ?s] =>
      destruct (summary_counts_ordered sample_json_loads sample_literal_eval sample_repr
                  sample_procedures sample_conditions rows_sample s)
        as (_ & _ & _ & Hp & Hc); [vm_compute; reflexivity|]
  end.
  split; [reflexivity|]. split; [reflexivity|]. split; [exact Hp | exact Hc].
Defined.

(** X6. In every summary returned, the three accuracies, the averaged
    precision and recall and the F1 all lie between 0 and 1. *)
Theorem summary_rates_in_unit_interval
    (json_loads literal_eval : string -> option PyVal) (py_repr : PyVal -> string)
    (variant_to_procedure : gmap string Cell)
    (variant_to_condition : gmap string string)
    (rows : list ResultRow) (s : Summary) :
  analyze_group json_loads literal_eval py_repr
    variant_to_procedure variant_to_condition rows = Ok s ->
  (0 <= exact_accuracy s <= 1)%Q /\
  (0 <= procedure_accuracy s <= 1)%Q /\
  (0 <= condition_accuracy s <= 1)%Q /\
  (0 <= procedure_precision s <= 1)%Q /\
  (0 <= procedure_recall s <= 1)%Q /\
  (0 <= procedure_f1 s <= 1)%Q.
Proof.
  intros Hs.
  destruct (analyze_group_Ok _ _ _ _ _ _ _ Hs)
    as (st & Hloop & [H0 Hp Hc Hps Hrs _] & Hne & He & Hpa & Hca & HP & HR & HF).
  destruct (loop_bounds _ _ _ _ _ _ _ _ Hloop) as (Hm & Hcm & Hsp & Hsr).
  simpl in Hm, Hcm, Hsp, Hsr. unfold py_sum in Hsp at 2, Hsr at 2. simpl in Hsp, Hsr.
  set (n := Z.of_nat (length rows)) in *.
  assert (0 < n) as Hn by (subst n; destruct rows; [done | simpl; lia]).
  assert (0 < int_to_Q n)%Q as HnQ by by apply int_to_Q_pos.
  assert (forall k, 0 <= k <= n -> (0 <= int_to_Q k / int_to_Q n <= 1)%Q) as Hfrac.
  { intros k [Hk0 Hkn]. split.
    - apply Qdiv_nonneg; [|exact HnQ]. by apply (int_to_Q_le 0).
    - apply Qdiv_le_1; [exact HnQ|]. by apply int_to_Q_le. }
  assert (0 <= procedure_precision s <= 1)%Q as HPu.
  { rewrite HP. split; [by apply Qdiv_nonneg | apply Qdiv_le_1; [exact HnQ | lra]]. }
  assert (0 <= procedure_recall s <= 1)%Q as HRu.
  { rewrite HR. split; [by apply Qdiv_nonneg | apply Qdiv_le_1; [exact HnQ | lra]]. }
  rewrite He, Hpa, Hca.
  split; [apply Hfrac; lia|]. split; [apply Hfrac; lia|]. split; [apply Hfrac; lia|].
  split; [exact HPu|]. split; [exact HRu|].
  rewrite HF. destruct (Qlt_le_dec 0 (procedure_precision s + procedure_recall s))
    as [Hpos|_]; [|lra].
  set (P := procedure_precision s) in *. set (R := procedure_recall s) in *.
  split.
  - apply Qdiv_nonneg; [|exact Hpos].
    assert (0 <= P * R)%Q by (apply Qmult_le_0_compat; lra). lra.
  - apply Qdiv_le_1; [exact Hpos|].
    assert (0 <= P * (1 - R))%Q by (apply Qmult_le_0_compat; lra).
    assert (0 <= R * (1 - P))%Q by (apply Qmult_le_0_compat; lra).
    lra.
Qed.

Lemma summary_rates_in_unit_interval_witness :
  exists s,
    analyze_group sample_json_loads sample_literal_eval sample_repr
      sample_procedures sample_conditions rows_sample = Ok s /\
    (0 <= procedure_precision s <= 1)%Q /\
    (0 <= procedure_recall s <= 1)%Q /\
    (0 <= procedure_f1 s <= 1)%Q.
Proof.
  eexists. split; [vm_compute; reflexivity|].
  match goal with
  | |- context [procedure_f1 ?s] =>
      destruct (summary_rates_in_unit_interval sample_json_loads sample_literal_eval
                  sample_repr sample_procedures sample_conditions rows_sample s)
        as (_ & _ & _ & HP & HR & HF); [vm_compute; reflexivity|]
  end.
  split; [exact HP|]. split; [exact HR | exact HF].
Defined.

Lemma loop_all_exact
    (json_loads literal_eval : string -> option PyVal) (py_repr : PyVal -> string)
    (variant_to_procedure : gmap string Cell)
    (variant_to_condition : gmap string string)
    (rows : list ResultRow) : forall st st',
  Forall exact_row rows ->
  for_each (loop_body json_loads literal_eval py_repr
              variant_to_procedure variant_to_condition) st rows = Ok st' ->
  exact_matches st' = exact_matches st + Z.of_nat (length rows) /\
  (py_sum (procedure_precision_scores st')
     == py_sum (procedure_precision_scores st) + int_to_Q (Z.of_nat (length rows)))%Q /\
  (py_sum (procedure_recall_scores st')
     == py_sum (procedure_recall_scores st) + int_to_Q (Z.of_nat (length rows)))%Q.
Proof.
  induction rows as [|row rows IH]; intros st st' Hall Hrun; simpl in Hrun.
  - injection Hrun as <-.
    change (int_to_Q (Z.of_nat (length (@nil ResultRow)))) with 0%Q.
    simpl. repeat split; try lia; lra.
  - inversion Hall as [|? ? Hrow Hrest]; subst.
    rewrite (loop_body_exact _ _ _ _ _ st row Hrow) in Hrun. simpl in Hrun.
    destruct (IH _ _ Hrest Hrun) as (He & Hp & Hr). simpl in He, Hp, Hr.
    rewrite !py_sum_snoc in *.
    assert (int_to_Q (Z.of_nat (length (row :: rows)))
            == int_to_Q (Z.of_nat (length rows)) + 1)%Q as Hlen.
    { unfold int_to_Q. rewrite <- (inject_Z_plus _ 1). simpl length.
      by rewrite Nat2Z.inj_succ. }
    rewrite Hlen, Hp, Hr. simpl length. repeat split; try lia; lra.
Qed.

(** X7. A batch, not empty, in which every row is an exact match always
    returns a summary, whatever the procedure and condition mappings
    hold, and all its rates are 1. *)
Theorem all_exact_batch_scores_one
    (json_loads literal_eval : string -> option PyVal) (py_repr : PyVal -> string)
    (variant_to_procedure : gmap string Cell)
    (variant_to_condition : gmap string string)
    (rows : list ResultRow) :
  rows <> [] ->
  Forall exact_row rows ->
  exists s,
    analyze_group json_loads literal_eval py_repr
      variant_to_procedure variant_to_condition rows = Ok s /\
    (exact_accuracy s == 1)%Q /\
    (procedure_accuracy s == 1)%Q /\
    (condition_accuracy s == 1)%Q /\
    (procedure_precision s == 1)%Q /\
    (procedure_recall s == 1)%Q /\
    (procedure_f1 s == 1)%Q.
Proof.
  intros Hne Hall.
  destruct (analyze_group_returns json_loads literal_eval py_repr variant_to_procedure
              variant_to_condition rows Hne) as [s Hs].
  { eapply Forall_impl; [exact Hall|]. intros row Hrow. by left. }
  exists s. split; [exact Hs|].
  destruct (analyze_group_Ok _ _ _ _ _ _ _ Hs)
    as (st & Hloop & [H0 Hp Hc _ _ _] & _ & He & Hpa & Hca & HP & HR & HF).
  destruct (loop_bounds _ _ _ _ _ _ _ _ Hloop) as (Hm & Hcm & _).
  destruct (loop_all_exact _ _ _ _ _ _ _ _ Hall Hloop) as (Hex & Hsp & Hsr).
  simpl in Hm, Hcm, Hex. unfold py_sum in Hsp at 2, Hsr at 2. simpl in Hsp, Hsr.
  set (n := Z.of_nat (length rows)) in *.
  assert (0 < n) as Hn by (subst n; destruct rows; [done | simpl; lia]).
  assert (0 < int_to_Q n)%Q as HnQ by by apply int_to_Q_pos.
  assert (procedure_matches st = n) as Epm by lia.
  assert (condition_matches st = n) as Ecm by lia.
  assert (procedure_precision s == 1)%Q as HP1.
  { rewrite HP. apply Qdiv_eq_1; [exact HnQ | lra]. }
  assert (procedure_recall s == 1)%Q as HR1.
  { rewrite HR. apply Qdiv_eq_1; [exact HnQ | lra]. }
  rewrite He, Hpa, Hca, Hex, Epm, Ecm. simpl.
  split; [by apply Qdiv_eq_1|]. split; [by apply Qdiv_eq_1|].
  split; [by apply Qdiv_eq_1|]. split; [exact HP1|]. split; [exact HR1|].
  rewrite HF. destruct (Qlt_le_dec 0 (procedure_precision s + procedure_recall s))
    as [Hpos|Hle]; [|lra].
  rewrite HP1, HR1. reflexivity.
Qed.

Lemma all_exact_batch_scores_one_witness :
  exists s,
    analyze_group sample_json_loads sample_literal_eval sample_repr
      sample_procedures sample_conditions [row_bad; row_AA] = Ok s /\
    (exact_accuracy s == 1)%Q /\
    (procedure_accuracy s == 1)%Q /\
    (condition_accuracy s == 1)%Q /\
    (procedure_precision s == 1)%Q /\
    (procedure_recall s == 1)%Q /\
    (procedure_f1 s == 1)%Q.
Proof.
  apply (all_exact_batch_scores_one sample_json_loads sample_literal_eval sample_repr
           sample_procedures sample_conditions [row_bad; row_AA]); [discriminate|].
  constructor; [reflexivity|]. constructor; [reflexivity | constructor].
Defined.

(** X8. The whole analysis returns only when each of the three description
    types has at least one row; what it returns then are three entries,
    [desc_1], [desc_2] and [desc_3] in this order, each counting the
    rows of its own type. With no [desc_1] row it raises
    [ZeroDivisionError]. *)
Theorem analysis_needs_three_groups
    (json_loads literal_eval : string -> option PyVal) (py_repr : PyVal -> string)
    (variant_to_procedure : gmap string Cell)
    (variant_to_condition : gmap string string)
    (df_results : list ResultRow) :
  (select "desc_1" df_results = [] ->
   analyze_partial_credit json_loads literal_eval py_repr
     variant_to_procedure variant_to_condition df_results = Raise ZeroDivisionError) /\
  (forall analysis,
     analyze_partial_credit json_loads literal_eval py_repr
       variant_to_procedure variant_to_condition df_results = Ok analysis ->
     exists s1 s2 s3,
       analysis = [("desc_1"%string, s1); ("desc_2"%string, s2); ("desc_3"%string, s3)] /\
       total_queries s1 = Z.of_nat (length (select "desc_1" df_results)) /\
       total_queries s2 = Z.of_nat (length (select "desc_2" df_results)) /\
       total_queries s3 = Z.of_nat (length (select "desc_3" df_results)) /\
       0 < total_queries s1 /\ 0 < total_queries s2 /\ 0 < total_queries s3).
Proof.
  split.
  - intros H. unfold analyze_partial_credit. cbn [analyze_types]. by rewrite H.
  - unfold analyze_partial_credit. cbn [analyze_types]. intros analysis H.
    destruct (analyze_group _ _ _ _ _ (select "desc_1" df_results)) as [s1|] eqn:E1;
      simpl in H; [|discriminate].
    destruct (analyze_group _ _ _ _ _ (select "desc_2" df_results)) as [s2|] eqn:E2;
      simpl in H; [|discriminate].
    destruct (analyze_group _ _ _ _ _ (select "desc_3" df_results)) as [s3|] eqn:E3;
      simpl in H; [|discriminate].
    injection H as <-. exists s1, s2, s3. split; [reflexivity|].
    destruct (analyze_group_counts _ _ _ _ _ _ _ E1) as (_ & _ & T1 & _).
    destruct (analyze_group_counts _ _ _ _ _ _ _ E2) as (_ & _ & T2 & _).
    destruct (analyze_group_counts _ _ _ _ _ _ _ E3) as (_ & _ & T3 & _).
    destruct (analyze_group_Ok _ _ _ _ _ _ _ E1) as (_ & _ & _ & N1 & _).
    destruct (analyze_group_Ok _ _ _ _ _ _ _ E2) as (_ & _ & _ & N2 & _).
    destruct (analyze_group_Ok _ _ _ _ _ _ _ E3) as (_ & _ & _ & N3 & _).
    rewrite T1, T2, T3. repeat split; try reflexivity.
    + destruct (select "desc_1" df_results); [done | simpl; lia].
    + destruct (select "desc_2" df_results); [done | simpl; lia].
    + destruct (select "desc_3" df_results); [done | simpl; lia].
Qed.

Lemma analysis_needs_three_groups_witness :
  analyze_partial_credit sample_json_loads sample_literal_eval sample_repr
    sample_procedures sample_conditions (tail results_sample)
  = Raise ZeroDivisionError /\
  exists s1 s2 s3,
    analyze_partial_credit sample_json_loads sample_literal_eval sample_repr
      sample_procedures sample_conditions (take 3 results_sample)
    = Ok [("desc_1"%string, s1); ("desc_2"%string, s2); ("desc_3"%string, s3)] /\
    total_queries s1 = 1 /\ total_queries s2 = 1 /\ total_queries s3 = 1.
Proof.
  split.
  - apply (analysis_needs_three_groups sample_json_loads sample_literal_eval sample_repr
             sample_procedures sample_conditions (tail results_sample)).
    reflexivity.
  - destruct (analyze_partial_credit sample_json_loads sample_literal_eval sample_repr
                sample_procedures sample_conditions (take 3 results_sample))
      as [analysis|] eqn:E; [|vm_compute in E; discriminate E].
    destruct (analysis_needs_three_groups sample_json_loads sample_literal_eval
                sample_repr sample_procedures sample_conditions
                (take 3 results_sample)) as [_ H].
    destruct (H analysis E) as (s1 & s2 & s3 & -> & T1 & T2 & T3 & _).
    exists s1, s2, s3. split; [reflexivity|]. rewrite T1, T2, T3.
    repeat split; reflexivity.
Defined.

(** ** Further properties of procedure-set extraction *)

Section MoreExtractionFacts.

Variable json_loads : string -> option PyVal.
Variable literal_eval : string -> option PyVal.
Variable py_repr : PyVal -> string.

Local Abbreviation extract := (extract_procedures json_loads literal_eval py_repr).
Local Abbreviation parse := (safe_parse_json json_loads literal_eval).
Local Abbreviation step := (extract_step py_repr).

Lemma set_add_Ok S v S' : set_add S v = Ok S' -> S ⊆ S' /\ exists k, py_hash v = Ok k /\ S' = {[ k ]} ∪ S.
Proof.
  unfold set_add. destruct (py_hash v) as [k|]; simpl; [|discriminate].
  intros [= <-]. split; [set_solver | eauto].
Qed.

(** A step on an entry that is not a dict adds its string form. *)
Lemma step_not_dict S v :
  is_dict v = false -> step S v = Ok ({[ KStr (py_str py_repr v) ]} ∪ S).
Proof. destruct v; try discriminate; reflexivity. Qed.

Lemma str_keys_cons v items :
  str_keys py_repr (v :: items) = {[ KStr (py_str py_repr v) ]} ∪ str_keys py_repr items.
Proof. reflexivity. Qed.

Lemma loop_not_dict items : forall S,
  forallb (fun v => negb (is_dict v)) items = true ->
  for_each step S items = Ok (str_keys py_repr items ∪ S).
Proof.
  induction items as [|v items IH]; intros S Hall.
  - simpl. f_equal. symmetry. apply (left_id_L ∅ (∪)).
  - simpl in Hall. apply andb_true_iff in Hall as [Hv Hrest].
    apply negb_true_iff in Hv. cbn [for_each]. rewrite (step_not_dict S v Hv).
    unfold mbind, result_bind. cbn [rbind].
    rewrite (IH _ Hrest), str_keys_cons. f_equal.
    rewrite (assoc_L (∪)). f_equal. apply (comm_L (∪)).
Qed.

(** A value that tests false has nothing to iterate over. *)
Lemma falsy_items v items :
  truthy v = false -> py_iter v = Ok items -> items = [].
Proof.
  destruct v as [| | |s|l|d]; simpl; try discriminate.
  - destruct s; [intros _ [= <-]; reflexivity | discriminate].
  - destruct l; [intros _ [= <-]; reflexivity | discriminate].
  - destruct d; [intros _ [= <-]; reflexivity | discriminate].
Qed.

Lemma extract_iter c items :
  py_iter (parse c) = Ok items -> extract c = for_each step ∅ items.
Proof.
  intros Hit. unfold extract_procedures.
  destruct (truthy (parse c)) eqn:Et; simpl.
  - by rewrite Hit.
  - by rewrite (falsy_items _ _ Et Hit).
Qed.

Lemma step_mono S v S' : step S v = Ok S' -> S ⊆ S'.
Proof.
  destruct v as [| | | | |d]; simpl;
    try (intros H; apply set_add_Ok in H; tauto).
  destruct (dict_get d (KStr "code")) as [c|].
  - destruct (set_add S c) as [S1|] eqn:E1; simpl; [|discriminate].
    apply set_add_Ok in E1 as [H1 _].
    destruct (dict_get d (KStr "name")) as [n|].
    + destruct (set_add S1 n) as [S2|] eqn:E2; simpl; [|discriminate].
      apply set_add_Ok in E2 as [H2 _].
      destruct (set_truthy S2); [intros [= <-]; set_solver|].
      intros H. apply set_add_Ok in H as [H3 _]. set_solver.
    + simpl. destruct (set_truthy S1); [intros [= <-]; set_solver|].
      intros H. apply set_add_Ok in H as [H3 _]. set_solver.
  - simpl. destruct (dict_get d (KStr "name")) as [n|].
    + destruct (set_add S n) as [S2|] eqn:E2; simpl; [|discriminate].
      apply set_add_Ok in E2 as [H2 _].
      destruct (set_truthy S2); [intros [= <-]; set_solver|].
      intros H. apply set_add_Ok in H as [H3 _]. set_solver.
    + simpl. destruct (set_truthy S); [intros [= <-]; set_solver|].
      intros H. apply set_add_Ok in H as [H3 _]. set_solver.
Qed.

Lemma loop_mono items : forall S S', for_each step S items = Ok S' -> S ⊆ S'.
Proof.
  induction items as [|v items IH]; intros S S' H; simpl in H.
  - by injection H as <-.
  - destruct (step S v) as [S1|] eqn:E; simpl in H; [|discriminate].
    apply step_mono in E. apply IH in H. set_solver.
Qed.

Lemma set_add_cases S v :
  (hashable v = true /\ exists k, set_add S v = Ok ({[ k ]} ∪ S)) \/
  (hashable v = false /\ set_add S v = Raise TypeError).
Proof. unfold hashable, set_add. destruct v; simpl; eauto. Qed.

Lemma step_tail S proc :
  exists S', (if set_truthy S then Ok S
              else set_add S (PStr (py_str py_repr proc))) = Ok S'.
Proof. destruct (set_truthy S); unfold set_add; simpl; eauto. Qed.

(** A step returns exactly on the entries whose fields can be hashed;
    on the others it raises [TypeError]. *)
Lemma step_hashable S v :
  (entry_hashable v = true -> exists S', step S v = Ok S') /\
  (entry_hashable v = false -> step S v = Raise TypeError).
Proof.
  destruct v as [| | | | |d];
    try (split; [intros _; unfold extract_step, set_add; simpl; eauto | discriminate]).
  unfold entry_hashable, extract_step.
  destruct (dict_get d (KStr "code")) as [c|].
  - destruct (set_add_cases S c) as [(-> & k & ->)|(-> & ->)]; simpl;
      [|split; [discriminate | reflexivity]].
    destruct (dict_get d (KStr "name")) as [n|].
    + destruct (set_add_cases ({[k]} ∪ S) n) as [(-> & k' & ->)|(-> & ->)]; simpl;
        [|split; [discriminate | reflexivity]].
      split; [intros _; apply (step_tail _ (PDict d)) | discriminate].
    + simpl. split; [intros _; apply (step_tail _ (PDict d)) | discriminate].
  - simpl. destruct (dict_get d (KStr "name")) as [n|].
    + destruct (set_add_cases S n) as [(-> & k' & ->)|(-> & ->)]; simpl;
        [|split; [discriminate | reflexivity]].
      split; [intros _; apply (step_tail _ (PDict d)) | discriminate].
    + simpl. split; [intros _; apply (step_tail _ (PDict d)) | discriminate].
Qed.

Lemma loop_hashable items : forall S,
  (forallb entry_hashable items = true -> exists S', for_each step S items = Ok S') /\
  (forallb entry_hashable items = false -> for_each step S items = Raise TypeError).
Proof.
  induction items as [|v items IH]; intros S; simpl.
  - split; [eauto | discriminate].
  - destruct (step_hashable S v) as [Hok Hbad].
    destruct (entry_hashable v); simpl.
    + destruct (Hok eq_refl) as [S1 ->]. simpl. apply IH.
    + split; [discriminate|]. intros _. by rewrite (Hbad eq_refl).
Qed.

(** What a step on an entry leaves in the set. *)
Lemma step_contains S v S' :
  step S v = Ok S' ->
  (is_dict v = false -> KStr (py_str py_repr v) ∈ S') /\
  (forall d x, v = PDict d ->
     dict_get d (KStr "code") = Some x \/ dict_get d (KStr "name") = Some x ->
     exists k, py_hash x = Ok k /\ k ∈ S').
Proof.
  intros H. split.
  - intros Hv. rewrite (step_not_dict S v Hv) in H. injection H as <-. set_solver.
  - intros d x -> Hx. simpl in H.
    destruct (dict_get d (KStr "code")) as [c|] eqn:Ec.
    + destruct (set_add S c) as [S1|] eqn:E1; simpl in H; [|discriminate].
      apply set_add_Ok in E1 as (_ & kc & Hkc & ->).
      destruct (dict_get d (KStr "name")) as [n|] eqn:En.
      * destruct (set_add ({[kc]} ∪ S) n) as [S2|] eqn:E2; simpl in H; [|discriminate].
        apply set_add_Ok in E2 as (_ & kn & Hkn & ->).
        assert (({[kn]} ∪ ({[kc]} ∪ S) : gset PyKey) ⊆ S') as Hsub.
        { destruct (set_truthy _); [by injection H as <-|].
          apply set_add_Ok in H as [? _]. done. }
        destruct Hx as [[= <-]|[= <-]]; [exists kc | exists kn];
          (split; [done | set_solver]).
      * simpl in H.
        assert (({[kc]} ∪ S : gset PyKey) ⊆ S') as Hsub.
        { destruct (set_truthy _); [by injection H as <-|].
          apply set_add_Ok in H as [? _]. done. }
        destruct Hx as [[= <-]|?]; [|discriminate].
        exists kc. split; [done | set_solver].
    + simpl in H. destruct (dict_get d (KStr "name")) as [n|] eqn:En.
      * destruct (set_add S n) as [S2|] eqn:E2; simpl in H; [|discriminate].
        apply set_add_Ok in E2 as (_ & kn & Hkn & ->).
        assert (({[kn]} ∪ S : gset PyKey) ⊆ S') as Hsub.
        { destruct (set_truthy _); [by injection H as <-|].
          apply set_add_Ok in H as [? _]. done. }
        destruct Hx as [?|[= <-]]; [discriminate|].
        exists kn. split; [done | set_solver].
      * destruct Hx; discriminate.
Qed.

Lemma loop_contains items : forall S S',
  for_each step S items = Ok S' ->
  forall v, v ∈ items ->
    (is_dict v = false -> KStr (py_str py_repr v) ∈ S') /\
    (forall d x, v = PDict d ->
       dict_get d (KStr "code") = Some x \/ dict_get d (KStr "name") = Some x ->
       exists k, py_hash x = Ok k /\ k ∈ S').
Proof.
  induction items as [|w items IH]; intros S S' H v Hv; [by apply elem_of_nil in Hv|].
  simpl in H. destruct (step S w) as [S1|] eqn:E; simpl in H; [|discriminate].
  apply elem_of_cons in Hv as [->|Hv]; [|by eapply IH].
  destruct (step_contains _ _ _ E) as [Hbare Hdict].
  pose proof (loop_mono _ _ _ H) as Hsub. split.
  - intros Hnd. apply Hsub, Hbare, Hnd.
  - intros d x Hd Hx. destruct (Hdict d x Hd Hx) as (k & Hk & Hin).
    exists k. split; [done | by apply Hsub].
Qed.

End MoreExtractionFacts.

(** X9. A missing cell, a text that both parsers reject, and any cell whose
    parsed value tests false (the empty list, object or string, [null],
    [false], [0]) all give the empty set, without an exception. *)
Theorem extraction_degrades_to_empty
    (json_loads literal_eval : string -> option PyVal) (py_repr : PyVal -> string) :
  extract_procedures json_loads literal_eval py_repr CNaN = Ok ∅ /\
  (forall s, json_loads s = None -> literal_eval s = None ->
     extract_procedures json_loads literal_eval py_repr (CStr s) = Ok ∅) /\
  (forall c, truthy (safe_parse_json json_loads literal_eval c) = false ->
     extract_procedures json_loads literal_eval py_repr c = Ok ∅).
Proof.
  split; [reflexivity|]. split.
  - intros s H1 H2. unfold extract_procedures, safe_parse_json. by rewrite H1, H2.
  - intros c H. unfold extract_procedures. by rewrite H.
Qed.

Lemma extraction_degrades_to_empty_witness :
  extract_procedures sample_json_loads sample_literal_eval sample_repr
    (CStr "not json at all") = Ok ∅ /\
  extract_procedures sample_json_loads sample_literal_eval sample_repr
    (CStr "[]") = Ok ∅.
Proof.
  destruct (extraction_degrades_to_empty sample_json_loads sample_literal_eval
              sample_repr) as (_ & Hbad & Hfalsy).
  split; [apply Hbad; reflexivity | apply Hfalsy; reflexivity].
Defined.

Lemma extract_object
    (json_loads literal_eval : string -> option PyVal) (py_repr : PyVal -> string)
    (c : Cell) (entries : list (string * PyVal)) :
  safe_parse_json json_loads literal_eval c =
    PDict (map (fun e => (KStr e.1, e.2)) entries) ->
  extract_procedures json_loads literal_eval py_repr c =
    Ok (list_to_set (map (fun e => KStr e.1) entries)).
Proof.
  intros Hparse.
  rewrite (extract_iter json_loads literal_eval py_repr c
             (map (fun e => PStr e.1) entries)).
  - rewrite loop_not_dict.
    + f_equal. rewrite (right_id_L ∅ (∪)). unfold str_keys.
      by rewrite map_map.
    + clear Hparse. induction entries as [|e entries IH]; [reflexivity | exact IH].
  - rewrite Hparse. simpl. by rewrite map_map.
Qed.

(** X10. When the cell parses to an object with string keys, as the cells
    written by [generate_synthetic.py] do, the extracted set is the set
    of its keys, the procedure names; the values play no part. *)
Theorem extraction_of_object_is_its_names
    (json_loads literal_eval : string -> option PyVal) (py_repr : PyVal -> string)
    (c : Cell) (entries : list (string * PyVal)) :
  safe_parse_json json_loads literal_eval c =
    PDict (map (fun e => (KStr e.1, e.2)) entries) ->
  extract_procedures json_loads literal_eval py_repr c =
    Ok (list_to_set (map (fun e => KStr e.1) entries)).
Proof. apply extract_object. Qed.

Lemma extraction_of_object_is_its_names_witness :
  extract_procedures (const_loads (PDict object_sample)) sample_literal_eval sample_repr
    (CStr "{...}") = Ok {[ KStr "CT chest"; KStr "MRI" ]}.
Proof.
  rewrite (extraction_of_object_is_its_names
             (const_loads (PDict object_sample)) sample_literal_eval sample_repr
             (CStr "{...}")
             [("CT chest"%string, PStr "Usually appropriate");
              ("MRI"%string, PStr "May be appropriate")]); [|reflexivity].
  vm_compute. reflexivity.
Defined.

(** X11. Whatever the parsed value yields when iterated (the items of a
    list, the keys of an object, the characters of a string), if none of
    these items is a dict the extracted set is the set of their string
    forms: duplicates collapse, and a cell holding one quoted name
    gives the set of that name's characters. *)
Theorem extraction_of_bare_items
    (json_loads literal_eval : string -> option PyVal) (py_repr : PyVal -> string)
    (c : Cell) (items : list PyVal) :
  py_iter (safe_parse_json json_loads literal_eval c) = Ok items ->
  forallb (fun v => negb (is_dict v)) items = true ->
  extract_procedures json_loads literal_eval py_repr c = Ok (str_keys py_repr items).
Proof.
  intros Hit Hall.
  rewrite (extract_iter json_loads literal_eval py_repr c items Hit).
  rewrite (loop_not_dict py_repr items ∅ Hall). f_equal. apply (right_id_L ∅ (∪)).
Qed.

Lemma extraction_of_bare_items_witness :
  extract_procedures (const_loads (PStr "CT")) sample_literal_eval sample_repr
    (CStr "'CT'") = Ok {[ KStr "C"; KStr "T" ]} /\
  extract_procedures (const_loads (PList [PStr "MRI"; PStr "CT"; PStr "MRI"]))
    sample_literal_eval sample_repr (CStr "[...]") = Ok {[ KStr "MRI"; KStr "CT" ]}.
Proof.
  split.
  - rewrite (extraction_of_bare_items (const_loads (PStr "CT")) sample_literal_eval
               sample_repr (CStr "'CT'") [PStr "C"; PStr "T"]); [|reflexivity ..].
    vm_compute. reflexivity.
  - rewrite (extraction_of_bare_items
               (const_loads (PList [PStr "MRI"; PStr "CT"; PStr "MRI"]))
               sample_literal_eval sample_repr (CStr "[...]")
               [PStr "MRI"; PStr "CT"; PStr "MRI"]); [|reflexivity ..].
    vm_compute. reflexivity.
Defined.

(** X12. On a cell that parses to a list, extraction returns a set exactly
    when every dict entry of the list has [code] and [name] fields that
    can be hashed (no list, no dict); otherwise it raises [TypeError]. *)
Theorem extraction_of_list_returns_iff_hashable
    (json_loads literal_eval : string -> option PyVal) (py_repr : PyVal -> string)
    (c : Cell) (l : list PyVal) :
  safe_parse_json json_loads literal_eval c = PList l ->
  (forallb entry_hashable l = true ->
   exists S, extract_procedures json_loads literal_eval py_repr c = Ok S) /\
  (forallb entry_hashable l = false ->
   extract_procedures json_loads literal_eval py_repr c = Raise TypeError).
Proof.
  intros Hparse.
  rewrite (extract_iter json_loads literal_eval py_repr c l)
    by (by rewrite Hparse).
  apply loop_hashable.
Qed.

Lemma extraction_of_list_returns_iff_hashable_witness :
  (exists S,
     extract_procedures
       (const_loads (PList [PDict [(KStr "code", PInt 71250); (KStr "name", PStr "CT")]]))
       sample_literal_eval sample_repr (CStr "[...]") = Ok S) /\
  extract_procedures
    (const_loads (PList [PStr "CT"; PDict [(KStr "name", PList [PStr "CT"])]]))
    sample_literal_eval sample_repr (CStr "[...]") = Raise TypeError.
Proof.
  split.
  - apply (extraction_of_list_returns_iff_hashable
             (const_loads (PList [PDict [(KStr "code", PInt 71250);
                                         (KStr "name", PStr "CT")]]))
             sample_literal_eval sample_repr (CStr "[...]")
             [PDict [(KStr "code", PInt 71250); (KStr "name", PStr "CT")]]);
      reflexivity.
  - apply (extraction_of_list_returns_iff_hashable
             (const_loads (PList [PStr "CT"; PDict [(KStr "name", PList [PStr "CT"])]]))
             sample_literal_eval sample_repr (CStr "[...]")
             [PStr "CT"; PDict [(KStr "name", PList [PStr "CT"])]]);
      reflexivity.
Defined.

(** X13. When extraction of a parsed list returns, the set holds the string
    form of every entry that is not a dict and the hashed [code] and
    [name] of every dict entry: no identifier of the list is lost. *)
Theorem extraction_keeps_every_identifier
    (json_loads literal_eval : string -> option PyVal) (py_repr : PyVal -> string)
    (c : Cell) (l : list PyVal) (S : gset PyKey) :
  safe_parse_json json_loads literal_eval c = PList l ->
  extract_procedures json_loads literal_eval py_repr c = Ok S ->
  forall v, v ∈ l ->
    (is_dict v = false -> KStr (py_str py_repr v) ∈ S) /\
    (forall d x, v = PDict d ->
       dict_get d (KStr "code") = Some x \/ dict_get d (KStr "name") = Some x ->
       exists k, py_hash x = Ok k /\ k ∈ S).
Proof.
  intros Hparse Hrun.
  rewrite (extract_iter json_loads literal_eval py_repr c l) in Hrun
    by (by rewrite Hparse).
  intros v Hv. eapply loop_contains; eauto.
Qed.

Lemma extraction_keeps_every_identifier_witness :
  KStr "CT" ∈ ({[ KStr "CT"; KInt 71250 ]} : gset PyKey) /\
  exists k, py_hash (PInt 71250) = Ok k /\ k ∈ ({[ KStr "CT"; KInt 71250 ]} : gset PyKey).
Proof.
  pose proof (extraction_keeps_every_identifier
                (const_loads (PList [PStr "CT"; PDict [(KStr "code", PInt 71250)]]))
                sample_literal_eval sample_repr (CStr "[...]")
                [PStr "CT"; PDict [(KStr "code", PInt 71250)]]
                {[ KStr "CT"; KInt 71250 ]} eq_refl) as H.
  assert (extract_procedures
            (const_loads (PList [PStr "CT"; PDict [(KStr "code", PInt 71250)]]))
            sample_literal_eval sample_repr (CStr "[...]")
          = Ok {[ KStr "CT"; KInt 71250 ]}) as Hrun by (vm_compute; reflexivity).
  split.
  - apply (H Hrun (PStr "CT")); [apply elem_of_cons; by left | reflexivity].
  - destruct (H Hrun (PDict [(KStr "code", PInt 71250)])) as [_ Hdict];
      [apply elem_of_cons; right; apply elem_of_cons; by left|].
    apply (Hdict [(KStr "code", PInt 71250)] (PInt 71250) eq_refl). by left.
Defined.

(** ** Properties of [load_acr_mapping] *)

Lemma has_dot_before_dot (s : string) : Mapping.has_dot (Mapping.before_dot s) = false.
Proof.
  induction s as [|c s IH]; simpl; [reflexivity|].
  destruct (Ascii.eqb c ".") eqn:E; simpl; [reflexivity | by rewrite E].
Qed.

Lemma has_dot_str_take n : forall s,
  Mapping.has_dot s = false -> Mapping.has_dot (Mapping.str_take n s) = false.
Proof.
  induction n as [|n IH]; intros [|c s]; simpl; try reflexivity.
  destruct (Ascii.eqb c "."); [discriminate | apply IH].
Qed.

Lemma before_dot_prefix (s : string) : str_prefix (Mapping.before_dot s) s.
Proof.
  induction s as [|c s [rest IH]]; simpl; [by exists EmptyString|].
  destruct (Ascii.eqb c "."); [by exists (String c s)|].
  exists rest. change (String c s = String c (Mapping.before_dot s +:+ rest)).
  by f_equal.
Qed.

Lemma str_take_prefix n : forall s, str_prefix (Mapping.str_take n s) s.
Proof.
  induction n as [|n IH]; intros [|c s]; simpl.
  - by exists EmptyString.
  - by exists (String c s).
  - by exists EmptyString.
  - destruct (IH s) as [rest Hrest]. exists rest.
    change (String c s = String c (Mapping.str_take n s +:+ rest)). by f_equal.
Qed.

Lemma str_take_length n : forall s, (String.length (Mapping.str_take n s) <= n)%nat.
Proof.
  induction n as [|n IH]; intros [|c s]; simpl; try lia.
  specialize (IH s). lia.
Qed.

(** X14. The condition guessed for a variant is a beginning of the variant's
    text and has no dot in it; for a variant without a dot it is at
    most 50 characters long, and for a variant that starts with a dot
    it is the empty string. *)
Theorem inferred_condition_shape (variant : string) :
  str_prefix (Mapping.infer_condition variant) variant /\
  Mapping.has_dot (Mapping.infer_condition variant) = false /\
  (Mapping.has_dot variant = false ->
   (String.length (Mapping.infer_condition variant) <= 50)%nat) /\
  (forall rest, variant = String "." rest ->
   Mapping.infer_condition variant = EmptyString).
Proof.
  unfold Mapping.infer_condition. destruct (Mapping.has_dot variant) eqn:E.
  - split; [apply before_dot_prefix|]. split; [apply has_dot_before_dot|].
    split; [discriminate|]. by intros rest ->.
  - split; [apply str_take_prefix|]. split; [by apply has_dot_str_take|].
    split; [intros _; apply str_take_length|]. intros rest ->. discriminate.
Qed.

Section PairFold.

Context {A : Type} (cond var : A -> string).

Local Abbreviation stepf :=
  (fun '((m1, m2) : gmap string string * gmap string (gset string)) (x : A) =>
     (<[var x := cond x]> m1, Mapping.add_to (cond x) (var x) m2)).

(** The two mappings after a loop that files each item under its
    condition: the first holds, for a variant, the condition of the
    last item with that variant; the second holds, under a condition,
    the variants of all the items with that condition. *)
Lemma fold_pairs_spec (l : list A) :
  (forall v, (fold_left stepf l (∅, ∅)).1 !! v
             = cond <$> last (filter (fun x => var x = v) l)) /\
  (forall c v, v ∈ variants_of (fold_left stepf l (∅, ∅)).2 c
               <-> exists x, x ∈ l /\ cond x = c /\ var x = v).
Proof.
  induction l as [|x l [IH1 IH2]] using rev_ind.
  - simpl. split; [intros v; by rewrite lookup_empty|].
    intros c v. unfold variants_of. rewrite lookup_empty. simpl. split.
    + intros H. by apply not_elem_of_empty in H.
    + intros (x & Hx & _). by apply elem_of_nil in Hx.
  - rewrite fold_left_app. simpl.
    destruct (fold_left stepf l (∅, ∅)) as [m1 m2]. simpl in *. split.
    + intros v. rewrite filter_app, last_app.
      destruct (decide (var x = v)) as [E|E].
      * rewrite E, lookup_insert_eq, filter_cons_True by done. reflexivity.
      * rewrite lookup_insert_ne by done.
        rewrite filter_cons_False by done. simpl. apply IH1.
    + intros c v. unfold variants_of, Mapping.add_to in *.
      destruct (decide (cond x = c)) as [E|E].
      * rewrite E, lookup_insert_eq. simpl. rewrite elem_of_union, elem_of_singleton.
        rewrite IH2. split.
        -- intros [->|(y & Hy & Hc & Hv)].
           ++ exists x. rewrite elem_of_app, list_elem_of_singleton. auto.
           ++ exists y. rewrite elem_of_app. auto.
        -- intros (y & Hy & Hc & Hv). apply elem_of_app in Hy as [Hy|Hy].
           ++ right. eauto.
           ++ apply list_elem_of_singleton in Hy. subst. by left.
      * rewrite lookup_insert_ne by done. rewrite IH2. split.
        -- intros (y & Hy & Hc & Hv). exists y. rewrite elem_of_app. auto.
        -- intros (y & Hy & Hc & Hv). apply elem_of_app in Hy as [Hy|Hy]; [eauto|].
           apply list_elem_of_singleton in Hy. subst. done.
Qed.

End PairFold.

Lemma load_procedures_spec (df : list Mapping.SyntheticRow) (v : string) :
  Mapping.load_procedures df !! v
  = Mapping.procedure_json <$> last (filter (fun row => Mapping.Variant row = v) df).
Proof.
  unfold Mapping.load_procedures.
  induction df as [|row df IH] using rev_ind; [apply lookup_empty|].
  rewrite fold_left_app, filter_app, last_app. simpl.
  destruct (decide (Mapping.Variant row = v)) as [E|E].
  - rewrite E, lookup_insert_eq, filter_cons_True by done. reflexivity.
  - rewrite lookup_insert_ne by done. rewrite filter_cons_False by done. apply IH.
Qed.

Lemma first_occurrences_spec (keys : list string) : forall seen,
  NoDup (Mapping.first_occurrences seen keys) /\
  (forall k, k ∈ Mapping.first_occurrences seen keys <-> k ∈ keys /\ k ∉ seen).
Proof.
  induction keys as [|k keys IH]; intros seen; simpl.
  - split; [constructor|]. intros k. rewrite elem_of_nil. tauto.
  - destruct (decide (k ∈ seen)) as [Hin|Hout].
    + destruct (IH seen) as [Hnd Hmem]. split; [exact Hnd|].
      intros k'. rewrite Hmem, elem_of_cons. split; [tauto|].
      intros [[->|?] ?]; tauto.
    + destruct (IH ({[k]} ∪ seen)) as [Hnd Hmem]. split.
      * constructor; [|exact Hnd]. rewrite Hmem. intros [_ Hn]. apply Hn.
        apply elem_of_union. left. by apply elem_of_singleton.
      * intros k'. rewrite !elem_of_cons, Hmem, not_elem_of_union, not_elem_of_singleton.
        destruct (decide (k' = k)) as [->|Hne]; tauto.
Qed.

Lemma last_filter_Some {A : Type} (P : A -> Prop) `{!forall x, Decision (P x)}
      (l : list A) (x : A) :
  last (filter P l) = Some x -> x ∈ l /\ P x.
Proof.
  intros Hlast. assert (x ∈ filter P l) as Hin.
  { apply last_Some in Hlast as [l' ->]. apply elem_of_app. right.
    by apply list_elem_of_singleton. }
  by apply list_elem_of_filter in Hin as [? ?].
Qed.

Lemma last_filter_is_Some {A : Type} (P : A -> Prop) `{!forall x, Decision (P x)}
      (l : list A) :
  is_Some (last (filter P l)) <-> exists x, x ∈ l /\ P x.
Proof.
  split.
  - intros [x Hx]. exists x. by apply (last_filter_Some P l x).
  - intros (x & Hin & HP).
    assert (x ∈ filter P l) as Hf by (rewrite list_elem_of_filter; done).
    destruct (filter P l) as [|y l'] eqn:E; [by apply elem_of_nil in Hf|].
    rewrite <- E. apply last_is_Some. by rewrite E.
Qed.

Lemma procedure_keys_spec (df : list Mapping.SyntheticRow) (v : string) :
  v ∈ Mapping.procedure_keys df <-> is_Some (Mapping.load_procedures df !! v).
Proof.
  unfold Mapping.procedure_keys.
  destruct (first_occurrences_spec (map Mapping.Variant df) ∅) as [_ Hmem].
  rewrite Hmem, load_procedures_spec, fmap_is_Some, last_filter_is_Some.
  change (map Mapping.Variant df) with (Mapping.Variant <$> df).
  rewrite list_elem_of_fmap. split.
  - intros [(row & -> & Hrow) _]. eauto.
  - intros (row & Hrow & <-). split; [eauto | apply not_elem_of_empty].
Qed.

Lemma inferred_condition_lookup (df : list Mapping.SyntheticRow) (v c : string) :
  (Mapping.infer_conditions (Mapping.procedure_keys df)).1 !! v = Some c <->
  is_Some (Mapping.load_procedures df !! v) /\ c = Mapping.infer_condition v.
Proof.
  destruct (fold_pairs_spec Mapping.infer_condition (fun x : string => x)
              (Mapping.procedure_keys df)) as [H1 _].
  change (forall v, (Mapping.infer_conditions (Mapping.procedure_keys df)).1 !! v =
            Mapping.infer_condition <$>
              last (filter (fun x : string => x = v) (Mapping.procedure_keys df))) in H1.
  rewrite H1, <- procedure_keys_spec. split.
  - intros H. apply fmap_Some in H as (x & Hx & ->).
    apply last_filter_Some in Hx as [Hin ->]. done.
  - intros [Hin ->].
    assert (is_Some (last (filter (fun x : string => x = v) (Mapping.procedure_keys df))))
      as [x Hx] by (apply last_filter_is_Some; eauto).
    rewrite Hx. simpl. apply last_filter_Some in Hx as [_ ->]. done.
Qed.

Lemma inferred_condition_shape_witness :
  str_prefix (Mapping.infer_condition "Chest pain. Initial imaging")
             "Chest pain. Initial imaging" /\
  Mapping.infer_condition "Chest pain. Initial imaging" = "Chest pain"%string /\
  (String.length (Mapping.infer_condition "Acute chest pain") <= 50)%nat /\
  Mapping.infer_condition ".5 cm nodule" = EmptyString.
Proof.
  destruct (inferred_condition_shape "Chest pain. Initial imaging") as (Hp & _).
  destruct (inferred_condition_shape "Acute chest pain") as (_ & _ & Hl & _).
  destruct (inferred_condition_shape ".5 cm nodule") as (_ & _ & _ & He).
  split; [exact Hp|]. split; [reflexivity|].
  split; [apply Hl; reflexivity|]. by apply (He "5 cm nodule"%string).
Defined.

(** X15. The procedure mapping holds, for each variant of the synthetic
    table, the cell of the last row with that variant, and nothing for
    a variant without a row, with or without the criteria file. *)
Theorem procedure_mapping_last_row_wins
    (df_synthetic : list Mapping.SyntheticRow)
    (df_acr : option (list Mapping.CriteriaRow)) (variant : string) :
  (Mapping.load_acr_mapping df_synthetic df_acr).1.1 !! variant =
    Mapping.procedure_json <$>
      last (filter (fun row => Mapping.Variant row = variant) df_synthetic).
Proof.
  unfold Mapping.load_acr_mapping.
  destruct df_acr as [rows|];
    [destruct (Mapping.load_conditions rows)
    | destruct (Mapping.infer_conditions (Mapping.procedure_keys df_synthetic))];
    simpl; apply load_procedures_spec.
Qed.

(** X16. With the criteria file, a variant maps to the condition of its
    last row, while the set filed under a condition holds the variants
    of all rows with that condition; so the set of a variant's
    condition always holds the variant, but a variant listed under two
    conditions stays in both sets. *)
Theorem criteria_mappings_from_rows
    (df_synthetic : list Mapping.SyntheticRow) (rows : list Mapping.CriteriaRow) :
  let variant_to_condition := (Mapping.load_acr_mapping df_synthetic (Some rows)).1.2 in
  let condition_to_variants := (Mapping.load_acr_mapping df_synthetic (Some rows)).2 in
  (forall v, variant_to_condition !! v =
     Mapping.criteria_Condition <$>
       last (filter (fun row => Mapping.criteria_Variant row = v) rows)) /\
  (forall c v, v ∈ variants_of condition_to_variants c <->
     exists row, row ∈ rows /\ Mapping.criteria_Condition row = c /\
                 Mapping.criteria_Variant row = v) /\
  (forall v c, variant_to_condition !! v = Some c ->
     v ∈ variants_of condition_to_variants c).
Proof.
  destruct (fold_pairs_spec Mapping.criteria_Condition Mapping.criteria_Variant rows)
    as [H1 H2].
  change (fold_left _ rows (∅, ∅)) with (Mapping.load_conditions rows) in H1, H2.
  unfold Mapping.load_acr_mapping.
  destruct (Mapping.load_conditions rows) as [m1 m2]. simpl in *.
  split; [exact H1|]. split; [exact H2|].
  intros v c Hv. rewrite H1 in Hv. apply fmap_Some in Hv as (row & Hrow & ->).
  apply (last_filter_Some _ rows row) in Hrow as [Hin Hvar]. apply H2. eauto.
Qed.

Lemma criteria_mappings_from_rows_witness :
  (Mapping.load_acr_mapping synthetic_sample (Some criteria_sample)).1.2
    !! "Initial imaging" = Some "Headache"%string /\
  "Initial imaging"%string ∈
    variants_of (Mapping.load_acr_mapping synthetic_sample (Some criteria_sample)).2
                "Headache" /\
  "Initial imaging"%string ∈
    variants_of (Mapping.load_acr_mapping synthetic_sample (Some criteria_sample)).2
                "Chest pain".
Proof.
  destruct (criteria_mappings_from_rows synthetic_sample criteria_sample)
    as (H1 & H2 & H3).
  split; [rewrite H1; reflexivity|]. split.
  - apply H3. rewrite H1. reflexivity.
  - apply H2. eexists. split; [apply elem_of_cons; left; reflexivity|]. by split.
Defined.

(** X17. Without the criteria file the two mappings are a partition of the
    variants of the procedure mapping: a variant maps to the condition
    guessed from its text, and the set filed under a condition holds
    exactly the variants that map to it. *)
Theorem inferred_mappings_partition
    (df_synthetic : list Mapping.SyntheticRow) :
  let variant_to_procedure := (Mapping.load_acr_mapping df_synthetic None).1.1 in
  let variant_to_condition := (Mapping.load_acr_mapping df_synthetic None).1.2 in
  let condition_to_variants := (Mapping.load_acr_mapping df_synthetic None).2 in
  (forall v c, variant_to_condition !! v = Some c <->
     is_Some (variant_to_procedure !! v) /\ c = Mapping.infer_condition v) /\
  (forall c v, v ∈ variants_of condition_to_variants c <->
     variant_to_condition !! v = Some c).
Proof.
  pose proof (inferred_condition_lookup df_synthetic) as H1.
  destruct (fold_pairs_spec Mapping.infer_condition (fun x : string => x)
              (Mapping.procedure_keys df_synthetic)) as [_ H2].
  change (fold_left _ (Mapping.procedure_keys df_synthetic) (∅, ∅))
    with (Mapping.infer_conditions (Mapping.procedure_keys df_synthetic)) in H2.
  unfold Mapping.load_acr_mapping.
  destruct (Mapping.infer_conditions (Mapping.procedure_keys df_synthetic)) as [m1 m2].
  simpl in *. split; [exact H1|].
  intros c v. rewrite H2, H1, <- procedure_keys_spec. split.
  - intros (x & Hx & Hc & ->). auto.
  - intros [Hin ->]. eauto.
Qed.

Lemma inferred_mappings_partition_witness :
  (Mapping.load_acr_mapping synthetic_sample None).1.2 !! "Chest pain. Follow-up"
    = Some "Chest pain"%string /\
  "Chest pain. Follow-up"%string ∈
    variants_of (Mapping.load_acr_mapping synthetic_sample None).2 "Chest pain".
Proof.
  destruct (inferred_mappings_partition synthetic_sample) as [H1 H2].
  assert ((Mapping.load_acr_mapping synthetic_sample None).1.2 !! "Chest pain. Follow-up"
          = Some "Chest pain"%string) as Hv.
  { apply H1. split; [|reflexivity]. eexists. vm_compute. reflexivity. }
  split; [exact Hv | by apply H2].
Defined.



(** ** Further properties of the three-description evaluator *)

Section MoreEvaluatorFacts.

Variable Vec : Type.
Variable encode : string -> Vec.
Variable fetch_nearest : Vec -> option (string * string * Q).
Variable py_round : Q -> Z -> Q.

Local Abbreviation loop := (Desc3.eval_loop Vec encode fetch_nearest py_round).

Lemma eval_loop_fields desc_type all_results0 df :
  Desc3.total_queries (loop desc_type all_results0 df)
    = count (issued desc_type) (Desc3.iterrows df) /\
  Desc3.correct_matches (loop desc_type all_results0 df)
    = count (correct Vec encode fetch_nearest desc_type) (Desc3.iterrows df) /\
  Desc3.distances (loop desc_type all_results0 df)
    = omap (distance_of Vec encode fetch_nearest desc_type) (Desc3.iterrows df) /\
  Desc3.all_results (loop desc_type all_results0 df)
    = all_results0 ++
      omap (detail_of Vec encode fetch_nearest py_round desc_type) (Desc3.iterrows df).
Proof.
  unfold Desc3.eval_loop.
  destruct (eval_fold_fields Vec encode fetch_nearest py_round desc_type
              (Desc3.iterrows df)
              {| Desc3.correct_matches := 0; Desc3.total_queries := 0;
                 Desc3.distances := []; Desc3.all_results := all_results0 |})
    as (Ht & Hc & Hd & Ha).
  simpl in Ht, Hc, Hd, Ha. by rewrite Ht, Hc, Hd, Ha.
Qed.

(** The summary of a type does not depend on the detail rows gathered
    before its loop. *)
Lemma summarize_ignores_details desc_type all_results0 df :
  Desc3.summarize py_round desc_type (loop desc_type all_results0 df)
  = Desc3.summarize py_round desc_type (loop desc_type [] df).
Proof.
  destruct (eval_loop_fields desc_type all_results0 df) as (Ht & Hc & Hd & _).
  destruct (eval_loop_fields desc_type [] df) as (Ht' & Hc' & Hd' & _).
  unfold Desc3.summarize. by rewrite Ht, Hc, Hd, Ht', Hc', Hd'.
Qed.

Lemma count_bounds {A : Type} (f g : A -> bool) (l : list A) :
  (forall x, f x = true -> g x = true) ->
  0 <= count f l <= count g l /\ count g l <= Z.of_nat (length l).
Proof.
  intros Hfg. induction l as [|x l IH]; simpl; [lia|].
  specialize (Hfg x). destruct (f x), (g x); simpl; try lia;
    by specialize (Hfg eq_refl).
Qed.

Lemma answered_lengths desc_type (l : list (Z * Desc3.CaseRow)) :
  Z.of_nat (length (omap (distance_of Vec encode fetch_nearest desc_type) l))
    = count (answered Vec encode fetch_nearest desc_type) l /\
  Z.of_nat (length (omap (detail_of Vec encode fetch_nearest py_round desc_type) l))
    = count (answered Vec encode fetch_nearest desc_type) l.
Proof.
  induction l as [|x l [IH1 IH2]]; [done|].
  cbn [omap list_omap count].
  unfold distance_of at 1, detail_of at 1, answered at 1 3.
  destruct (answer Vec encode fetch_nearest desc_type x) as [[s [[c v] d]]|];
    cbn [length bump]; rewrite ?Nat2Z.inj_succ; lia.
Qed.

Lemma correct_answered_issued desc_type (x : Z * Desc3.CaseRow) :
  (correct Vec encode fetch_nearest desc_type x = true ->
   answered Vec encode fetch_nearest desc_type x = true) /\
  (answered Vec encode fetch_nearest desc_type x = true -> issued desc_type x = true).
Proof.
  unfold correct, answered, answer, issued.
  destruct (Desc3.descriptions x.2 desc_type) as [|s]; [split; discriminate|].
  destruct (fetch_nearest (encode s)) as [[[c v] d]|]; split; done.
Qed.

(** The rows marked [Yes] among the detail rows of a type are as many
    as the correct retrievals. *)
Lemma yes_rows_count desc_type (l : list (Z * Desc3.CaseRow)) :
  Z.of_nat (length (yes_rows
     (omap (detail_of Vec encode fetch_nearest py_round desc_type) l)))
  = count (correct Vec encode fetch_nearest desc_type) l.
Proof.
  induction l as [|x l IH]; [done|].
  cbn [omap list_omap count].
  unfold detail_of at 1, correct at 1.
  destruct (answer Vec encode fetch_nearest desc_type x) as [[s [[c v] d]]|];
    [|cbn [bump]; lia].
  unfold yes_rows in *. destruct (bool_decide (v = Desc3.original_variant x.2)).
  - rewrite filter_cons_True by reflexivity. cbn [length bump].
    rewrite Nat2Z.inj_succ. lia.
  - rewrite filter_cons_False by discriminate. cbn [bump]. lia.
Qed.

Lemma rows_of_type_details desc_type other (l : list (Z * Desc3.CaseRow)) :
  rows_of_type desc_type (omap (detail_of Vec encode fetch_nearest py_round other) l)
  = if decide (other = desc_type)
    then omap (detail_of Vec encode fetch_nearest py_round other) l
    else [].
Proof.
  unfold rows_of_type.
  induction l as [|x l IH]; [by destruct (decide _)|].
  cbn [omap list_omap].
  destruct (detail_of Vec encode fetch_nearest py_round other x) as [y|] eqn:E;
    [|exact IH].
  assert (Desc3.description_type y = Desc3.desc_name other) as Hy.
  { unfold detail_of in E.
    destruct (answer Vec encode fetch_nearest other x) as [[s [[c v] d]]|];
      [|discriminate]. by injection E as <-. }
  destruct (decide (other = desc_type)) as [->|Hne].
  - rewrite filter_cons_True by exact Hy. by rewrite IH.
  - rewrite filter_cons_False; [exact IH|].
    rewrite Hy. intros E'. apply Hne. by destruct other, desc_type.
Qed.

(** The value returned by the evaluator, type by type. *)
Lemma evaluate_unfold df :
  Desc3.evaluate_synthetic_descriptions Vec encode fetch_nearest py_round df =
  ([ Desc3.summarize py_round Desc3.desc_1 (loop Desc3.desc_1 [] df);
     Desc3.summarize py_round Desc3.desc_2 (loop Desc3.desc_2 [] df);
     Desc3.summarize py_round Desc3.desc_3 (loop Desc3.desc_3 [] df) ],
   omap (detail_of Vec encode fetch_nearest py_round Desc3.desc_1) (Desc3.iterrows df) ++
   omap (detail_of Vec encode fetch_nearest py_round Desc3.desc_2) (Desc3.iterrows df) ++
   omap (detail_of Vec encode fetch_nearest py_round Desc3.desc_3) (Desc3.iterrows df)).
Proof.
  unfold Desc3.evaluate_synthetic_descriptions. cbn [Desc3.eval_types].
  destruct (eval_loop_fields Desc3.desc_1 [] df) as (_ & _ & _ & ->).
  rewrite (summarize_ignores_details Desc3.desc_2).
  destruct (eval_loop_fields Desc3.desc_2
              ([] ++ omap (detail_of Vec encode fetch_nearest py_round Desc3.desc_1)
                          (Desc3.iterrows df)) df) as (_ & _ & _ & ->).
  rewrite (summarize_ignores_details Desc3.desc_3).
  destruct (eval_loop_fields Desc3.desc_3
              (([] ++ omap (detail_of Vec encode fetch_nearest py_round Desc3.desc_1)
                           (Desc3.iterrows df)) ++
               omap (detail_of Vec encode fetch_nearest py_round Desc3.desc_2)
                    (Desc3.iterrows df)) df) as (_ & _ & _ & ->).
  simpl. by rewrite <- app_assoc.
Qed.

Lemma rows_of_type_evaluate desc_type df :
  rows_of_type desc_type
    (Desc3.evaluate_synthetic_descriptions Vec encode fetch_nearest py_round df).2
  = omap (detail_of Vec encode fetch_nearest py_round desc_type) (Desc3.iterrows df).
Proof.
  rewrite evaluate_unfold. cbn [snd].
  assert (forall l1 l2, rows_of_type desc_type (l1 ++ l2)
            = rows_of_type desc_type l1 ++ rows_of_type desc_type l2) as Happ
    by (intros; apply filter_app).
  rewrite !Happ, !rows_of_type_details.
  destruct desc_type; simpl; by rewrite ?app_nil_r.
Qed.

Lemma summary_of_evaluate desc_type df :
  summary_of desc_type
    (Desc3.evaluate_synthetic_descriptions Vec encode fetch_nearest py_round df).1
  = Some (Desc3.summarize py_round desc_type (loop desc_type [] df)).
Proof. rewrite evaluate_unfold. by destruct desc_type. Qed.

End MoreEvaluatorFacts.

Lemma iterrows_length (df : list Desc3.CaseRow) :
  length (Desc3.iterrows df) = length df.
Proof. unfold Desc3.iterrows. apply length_imap. Qed.

(** X19. The detail rows and the summary of a type agree: the rows of that
    type marked [Yes] are as many as the summary's exact matches. *)
Theorem detail_rows_agree_with_summary
    (Vec : Type) (encode : string -> Vec)
    (fetch_nearest : Vec -> option (string * string * Q))
    (py_round : Q -> Z -> Q)
    (df : list Desc3.CaseRow) (desc_type : Desc3.DescType) :
  exists s,
    summary_of desc_type
      (Desc3.evaluate_synthetic_descriptions Vec encode fetch_nearest py_round df).1
      = Some s /\
    Desc3.summary_description_type s = Desc3.desc_name desc_type /\
    Desc3.summary_exact_matches s =
      Z.of_nat (length (yes_rows (rows_of_type desc_type
        (Desc3.evaluate_synthetic_descriptions Vec encode fetch_nearest py_round df).2))).
Proof.
  eexists. split; [apply summary_of_evaluate|]. split; [reflexivity|].
  rewrite rows_of_type_evaluate, yes_rows_count. simpl.
  by destruct (eval_loop_fields Vec encode fetch_nearest py_round desc_type [] df)
    as (_ & -> & _).
Qed.

(** X20. For each type the counts are ordered: the exact matches are at most
    the detail rows of the type, these at most the queries counted, and
    these at most the rows of the table. *)
Theorem evaluation_counts_ordered
    (Vec : Type) (encode : string -> Vec)
    (fetch_nearest : Vec -> option (string * string * Q))
    (py_round : Q -> Z -> Q)
    (df : list Desc3.CaseRow) (desc_type : Desc3.DescType) :
  exists s,
    summary_of desc_type
      (Desc3.evaluate_synthetic_descriptions Vec encode fetch_nearest py_round df).1
      = Some s /\
    0 <= Desc3.summary_exact_matches s /\
    Desc3.summary_exact_matches s <=
      Z.of_nat (length (rows_of_type desc_type
        (Desc3.evaluate_synthetic_descriptions Vec encode fetch_nearest py_round df).2)) /\
    Z.of_nat (length (rows_of_type desc_type
        (Desc3.evaluate_synthetic_descriptions Vec encode fetch_nearest py_round df).2))
      <= Desc3.summary_total_queries s /\
    Desc3.summary_total_queries s <= Z.of_nat (length df).
Proof.
  eexists. split; [apply summary_of_evaluate|].
  rewrite rows_of_type_evaluate. simpl.
  destruct (eval_loop_fields Vec encode fetch_nearest py_round desc_type [] df)
    as (-> & -> & _).
  destruct (answered_lengths Vec encode fetch_nearest py_round desc_type
              (Desc3.iterrows df)) as [_ ->].
  destruct (count_bounds (correct Vec encode fetch_nearest desc_type)
              (answered Vec encode fetch_nearest desc_type) (Desc3.iterrows df))
    as [[H0 H1] _];
    [intros x; apply (correct_answered_issued Vec encode fetch_nearest)|].
  destruct (count_bounds (answered Vec encode fetch_nearest desc_type)
              (issued desc_type) (Desc3.iterrows df)) as [[_ H2] H3];
    [intros x; apply (correct_answered_issued Vec encode fetch_nearest)|].
  rewrite iterrows_length in H3. lia.
Qed.

(** X21. Every detail row points back to its source: its [query_id] is the
    position, counted from 1, of a row of the table whose expected
    variant and whose description of that type are the ones recorded. *)
Theorem detail_row_traces_to_its_query
    (Vec : Type) (encode : string -> Vec)
    (fetch_nearest : Vec -> option (string * string * Q))
    (py_round : Q -> Z -> Q)
    (df : list Desc3.CaseRow) (desc_type : Desc3.DescType) (d : Desc3.DetailRow) :
  d ∈ rows_of_type desc_type
        (Desc3.evaluate_synthetic_descriptions Vec encode fetch_nearest py_round df).2 ->
  exists (i : nat) (row : Desc3.CaseRow) (distance : Q),
    df !! i = Some row /\
    Desc3.query_id d = Z.of_nat i + 1 /\
    Desc3.detail_original_variant d = Desc3.original_variant row /\
    Desc3.descriptions row desc_type = CStr (Desc3.synthetic_description d) /\
    fetch_nearest (encode (Desc3.synthetic_description d)) =
      Some (Desc3.retrieved_condition d, Desc3.retrieved_variant d, distance) /\
    Desc3.euclidean_distance d = py_round distance 6 /\
    (Desc3.exact_match d = "Yes"%string <->
     Desc3.retrieved_variant d = Desc3.original_variant row).
Proof.
  rewrite rows_of_type_evaluate. intros Hd.
  apply list_elem_of_omap in Hd as ([idx row] & Hin & Hdet).
  unfold Desc3.iterrows in Hin. apply elem_of_lookup_imap in Hin as (i & row' & E & Hi).
  injection E as -> ->.
  unfold detail_of, answer in Hdet. simpl in Hdet.
  destruct (Desc3.descriptions row' desc_type) as [|s] eqn:Es; [discriminate|].
  destruct (fetch_nearest (encode s)) as [[[c v] dist]|] eqn:Ef; [|discriminate].
  injection Hdet as <-. exists i, row', dist. simpl.
  repeat split; try done; case_bool_decide; done.
Qed.

Lemma detail_row_traces_to_its_query_witness :
  exists (i : nat) (row : Desc3.CaseRow),
    two_cases !! i = Some row /\
    Z.of_nat i + 1 = 2 /\
    Desc3.descriptions row Desc3.desc_2 = CStr "Follow-up".
Proof.
  destruct (detail_row_traces_to_its_query string echo_encode echo_index keep_round
              two_cases Desc3.desc_2
              {| Desc3.description_type := "desc_2";
                 Desc3.query_id := 2;
                 Desc3.detail_original_variant := "Follow-up";
                 Desc3.synthetic_description := "Follow-up";
                 Desc3.retrieved_condition := "Some condition";
                 Desc3.retrieved_variant := "Follow-up";
                 Desc3.exact_match := "Yes";
                 Desc3.euclidean_distance := (1 # 2)%Q |})
    as (i & row & dist & Hrow & Hid & _ & Hdesc & _).
  { vm_compute. apply elem_of_cons. right. apply elem_of_cons. by left. }
  exists i, row. simpl in Hid, Hdesc. split; [exact Hrow|]. split; [lia | exact Hdesc].
Defined.

(** ** Properties of the reading of the descriptions *)

Lemma lstrip_app (chars p s : string) :
  all_in chars p = true -> Generate.lstrip chars (p +:+ s) = Generate.lstrip chars s.
Proof.
  induction p as [|c p IH]; [done|]. simpl. intros H.
  apply andb_true_iff in H as [Hc Hp].
  change (String c p +:+ s) with (String c (p +:+ s)). simpl.
  rewrite Hc. by apply IH.
Qed.

Lemma lstrip_fixed (chars s : string) :
  Generate.lstrip chars s = s <-> starts_outside chars s = true.
Proof.
  destruct s as [|c s]; simpl; [done|].
  destruct (Generate.char_in c chars) eqn:E; simpl; [|done].
  split; [|discriminate]. intros H. exfalso.
  assert (forall t, (String.length (Generate.lstrip chars t) <= String.length t)%nat) as Hlen.
  { induction t as [|c' t IH]; simpl; [lia|].
    destruct (Generate.char_in c' chars); simpl; lia. }
  specialize (Hlen s). rewrite H in Hlen. simpl in Hlen. lia.
Qed.

(** X23. [lstrip] removes more than the numbering: after the prefix [1. ],
    it goes on through the description while it meets a [1], a dot or
    a space. The description comes back unchanged exactly when it is
    empty or starts with another character. *)
Theorem lstrip_eats_into_description (description : string) :
  Generate.lstrip "1. " ("1. " +:+ description) = Generate.lstrip "1. " description /\
  (Generate.lstrip "1. " ("1. " +:+ description) = description <->
   starts_outside "1. " description = true).
Proof.
  assert (Generate.lstrip "1. " ("1. " +:+ description)
          = Generate.lstrip "1. " description) as H by (by apply lstrip_app).
  split; [exact H|]. rewrite H. apply lstrip_fixed.
Qed.

Lemma lstrip_eats_into_description_witness :
  Generate.lstrip "1. " "1. 18M with chest pain" = "8M with chest pain"%string /\
  Generate.lstrip "1. " "1. 36F with leg pain" = "36F with leg pain"%string.
Proof.
  destruct (lstrip_eats_into_description "18M with chest pain") as [H1 _].
  destruct (lstrip_eats_into_description "36F with leg pain") as [_ H2].
  split; [exact H1 | exact (proj2 H2 eq_refl)].
Defined.



(** ** Properties of the exact-match evaluator *)


Section ExactFacts.

Variable Vec : Type.
Variable encode : string -> Vec.
Variable fetch_nearest : Vec -> option (string * string * Q).
Variable py_round : Q -> Z -> Q.

Local Abbreviation step := (Exact.eval_step Vec encode fetch_nearest py_round).

Lemma exact_step_cases acc (x : Z * (string * string)) :
  (has_result encode fetch_nearest x.2 = false /\ step acc x = acc) \/
  (has_result encode fetch_nearest x.2 = true /\
   exists r, step acc x = acc ++ [r] /\
     (Exact.true_condition r, Exact.true_variant r) = x.2 /\
     Exact.query_id r = x.1 + 1).
Proof.
  destruct x as [idx [c v]]. unfold Exact.eval_step, has_result. simpl.
  destruct (fetch_nearest (encode v)) as [[[rc rv] d]|]; [right | by left].
  split; [reflexivity|]. eexists. split; [reflexivity|]. by simpl.
Qed.

Lemma exact_fold_spec (l : list (Z * (string * string))) : forall acc,
  exists l',
    fold_left step l acc = acc ++ l' /\
    map (fun r => (Exact.true_condition r, Exact.true_variant r)) l'
      `sublist_of` map snd l /\
    Z.of_nat (length l') = count (fun x => has_result encode fetch_nearest x.2) l.
Proof.
  induction l as [|x l IH]; intros acc; simpl.
  - exists []. rewrite app_nil_r. split; [done|]. split; [constructor | done].
  - destruct (exact_step_cases acc x) as [[-> ->]|[-> (r & -> & Hkey & _)]].
    + destruct (IH acc) as (l' & -> & Hsub & Hlen). exists l'.
      split; [done|]. split; [by constructor | simpl; lia].
    + destruct (IH (acc ++ [r])) as (l' & -> & Hsub & Hlen). exists (r :: l').
      rewrite <- app_assoc. split; [done|]. split.
      * simpl. rewrite Hkey. by constructor.
      * cbn [length bump]. rewrite Nat2Z.inj_succ. lia.
Qed.

Lemma count_imap_snd {A : Type} (f : A -> bool) (l : list A) : forall (g : nat -> Z),
  count (fun x : Z * A => f x.2) (imap (fun i s => (g i, s)) l) = count f l.
Proof.
  induction l as [|y l IH]; intros g; simpl; [done|].
  f_equal. apply (IH (fun i => g (S i))).
Qed.

Lemma map_snd_imap {A : Type} (l : list A) : forall (g : nat -> Z),
  map snd (imap (fun i s => (g i, s)) l) = l.
Proof.
  induction l as [|y l IH]; intros g; simpl; [done|].
  f_equal. apply (IH (fun i => g (S i))).
Qed.

Lemma exact_loop_spec (scenarios : list (string * string)) :
  map (fun r => (Exact.true_condition r, Exact.true_variant r))
      (Exact.eval_loop Vec encode fetch_nearest py_round scenarios)
    `sublist_of` scenarios /\
  Z.of_nat (length (Exact.eval_loop Vec encode fetch_nearest py_round scenarios))
    = count (has_result encode fetch_nearest) scenarios.
Proof.
  unfold Exact.eval_loop.
  destruct (exact_fold_spec (imap (fun i s => (Z.of_nat i, s)) scenarios) [])
    as (l' & -> & Hsub & Hlen).
  rewrite map_snd_imap in Hsub. rewrite count_imap_snd in Hlen. by simpl.
Qed.

Lemma count_zero_iff {A : Type} (f : A -> bool) (l : list A) :
  count f l = 0 <-> forall x, x ∈ l -> f x = false.
Proof.
  assert (forall l', 0 <= count f l') as Hpos.
  { induction l' as [|y l' IH]; simpl; [lia|]. destruct (f y); simpl; lia. }
  induction l as [|y l IH]; simpl.
  - split; [|done]. intros _ x Hx. by apply elem_of_nil in Hx.
  - specialize (Hpos l). split.
    + intros H x Hx. apply elem_of_cons in Hx as [->|Hx].
      * destruct (f y); simpl in H; [lia | done].
      * apply IH; [|exact Hx]. destruct (f y); simpl in H; lia.
    + intros H. rewrite (H y) by (apply elem_of_cons; by left). simpl.
      apply IH. intros x Hx. apply H. apply elem_of_cons. by right.
Qed.

End ExactFacts.

(** X25. The exact-match evaluator returns exactly when at least one query
    got a result; its [total_queries] is then the number of queries
    that got one (a query without a result is left out of the
    denominator), which is at least 1, and the exact matches lie
    between 0 and that total. When no query gets a result, as on an
    empty table or an empty index, it stops on [KeyError]. *)
Theorem exact_evaluator_counts_answered_queries
    (Vec : Type) (encode : string -> Vec)
    (fetch_nearest : Vec -> option (string * string * Q))
    (py_round : Q -> Z -> Q) (df : list Embed.AcrRow) :
  (Exact.evaluate_exact_match_retrieval Vec encode fetch_nearest py_round df
     = Exact.KeyError <->
   forall scenario, scenario ∈ Exact.unique_scenarios df ->
     has_result encode fetch_nearest scenario = false) /\
  (forall records stats,
     Exact.evaluate_exact_match_retrieval Vec encode fetch_nearest py_round df
       = Exact.Returned (records, stats) ->
     Exact.total_queries stats = Z.of_nat (length records) /\
     Exact.total_queries stats
       = count (has_result encode fetch_nearest) (Exact.unique_scenarios df) /\
     0 < Exact.total_queries stats /\
     0 <= Exact.exact_matches stats <= Exact.total_queries stats).
Proof.
  unfold Exact.evaluate_exact_match_retrieval.
  destruct (exact_loop_spec Vec encode fetch_nearest py_round (Exact.unique_scenarios df))
    as [_ Hlen].
  rewrite <- count_zero_iff, <- Hlen.
  destruct (Exact.eval_loop Vec encode fetch_nearest py_round (Exact.unique_scenarios df))
    as [|r records] eqn:E.
  - simpl. split; [done|]. intros ? ? [=].
  - split; [split; [discriminate | cbn [length]; rewrite Nat2Z.inj_succ; lia]|].
    unfold Exact.summarize. intros records' stats [= <- <-]. cbn [Exact.total_queries
      Exact.exact_matches]. split; [done|]. split; [done|].
    split; [cbn [length]; rewrite Nat2Z.inj_succ; lia|].
    split; [lia|]. apply inj_le.
    apply (length_filter (fun r => Exact.exact_match r = "Yes"%string) (r :: records)).
Qed.

Lemma exact_evaluator_counts_answered_queries_witness :
  Exact.evaluate_exact_match_retrieval string echo_encode empty_index keep_round
    [row_device] = Exact.KeyError /\
  forall records stats,
    Exact.evaluate_exact_match_retrieval string echo_encode echo_index keep_round
      [row_device; row_device] = Exact.Returned (records, stats) ->
    Exact.total_queries stats = 1.
Proof.
  split.
  - apply (exact_evaluator_counts_answered_queries string echo_encode empty_index
             keep_round [row_device]). done.
  - intros records stats H.
    destruct (exact_evaluator_counts_answered_queries string echo_encode echo_index
                keep_round [row_device; row_device]) as [_ Hret].
    destruct (Hret records stats H) as (_ & -> & _). reflexivity.
Defined.



(** ** Properties of the generation of the synthetic table *)

Lemma dict_set_spec k v d :
  NoDup (map fst d) ->
  NoDup (map fst (Synthetic.dict_set k v d)) /\
  (forall k', assoc_get k' (Synthetic.dict_set k v d)
              = if decide (k = k') then Some v else assoc_get k' d) /\
  (forall k', k' ∈ map fst (Synthetic.dict_set k v d) <-> k' = k \/ k' ∈ map fst d).
Proof.
  induction d as [|[k0 v0] d IH]; simpl; intros Hnd.
  - split; [repeat constructor; apply not_elem_of_nil|]. split.
    + intros k'. by destruct (decide (k = k')).
    + intros k'. rewrite elem_of_cons, elem_of_nil. tauto.
  - apply NoDup_cons in Hnd as [Hk0 Hnd]. destruct (IH Hnd) as (IH1 & IH2 & IH3).
    destruct (decide (k0 = k)) as [->|Hne]; simpl.
    + split; [by apply NoDup_cons|]. split.
      * intros k'. destruct (decide (k = k')); done.
      * intros k'. rewrite !elem_of_cons. tauto.
    + split; [|split].
      * apply NoDup_cons. split; [|exact IH1]. rewrite IH3. tauto.
      * intros k'. rewrite IH2.
        destruct (decide (k0 = k')) as [->|?]; [|done].
        by rewrite decide_False.
      * intros k'. rewrite !elem_of_cons, IH3. tauto.
Qed.

Lemma procedures_of_group_spec (rows : list Embed.AcrRow) :
  NoDup (map fst (Synthetic.procedures_of_group rows)) /\
  (forall k, assoc_get k (Synthetic.procedures_of_group rows)
     = Embed.Appropriateness_Category <$>
         last (filter (fun row => Embed.Procedure row = k) rows)) /\
  (forall k, k ∈ map fst (Synthetic.procedures_of_group rows)
     <-> exists row, row ∈ rows /\ Embed.Procedure row = k).
Proof.
  unfold Synthetic.procedures_of_group.
  induction rows as [|row rows (IH1 & IH2 & IH3)] using rev_ind.
  - simpl. split; [constructor|]. split; [done|].
    intros k. rewrite elem_of_nil. split; [done|].
    intros (row & Hrow & _). by apply elem_of_nil in Hrow.
  - rewrite fold_left_app. simpl.
    destruct (dict_set_spec (Embed.Procedure row) (Embed.Appropriateness_Category row)
                _ IH1) as (H1 & H2 & H3).
    split; [exact H1|]. split.
    + intros k. rewrite H2, filter_app, last_app.
      destruct (decide (Embed.Procedure row = k)) as [E|E].
      * by rewrite filter_cons_True.
      * rewrite filter_cons_False by done. apply IH2.
    + intros k. rewrite H3, IH3. split.
      * intros [->|(r & Hr & Hk)]; [exists row | exists r];
          rewrite elem_of_app, list_elem_of_singleton; auto.
      * intros (r & Hr & Hk). apply elem_of_app in Hr as [Hr|Hr]; [eauto|].
        apply list_elem_of_singleton in Hr. subst. by left.
Qed.

#[local] Instance str_le_total : Total Synthetic.str_le.
Proof. intros s1 s2. apply String.leb_total. Qed.

Lemma group_keys_spec (df : list Embed.AcrRow) :
  NoDup (Synthetic.group_keys df) /\
  Sorted Synthetic.str_le (Synthetic.group_keys df) /\
  (forall v, v ∈ Synthetic.group_keys df <-> exists row, row ∈ df /\ Embed.Variant row = v).
Proof.
  unfold Synthetic.group_keys.
  destruct (first_occurrences_spec (map Embed.Variant df) ∅) as [Hnd Hmem].
  pose proof (merge_sort_Permutation Synthetic.str_le
                (Mapping.first_occurrences ∅ (map Embed.Variant df))) as Hperm.
  split; [by rewrite Hperm|]. split; [apply (@Sorted_merge_sort _ Synthetic.str_le _ str_le_total)|].
  intros v. rewrite Hperm, Hmem.
  change (map Embed.Variant df) with (Embed.Variant <$> df).
  rewrite list_elem_of_fmap. split.
  - intros [(row & -> & Hrow) _]. eauto.
  - intros (row & Hrow & <-). split; [eauto | apply not_elem_of_empty].
Qed.

Lemma last_filter_map_key {A : Type} (f : string -> A) (key : A -> string)
      (keys : list string) (v : string) :
  (forall k, key (f k) = k) -> NoDup keys -> v ∈ keys ->
  last (filter (fun r => key r = v) (map f keys)) = Some (f v).
Proof.
  intros Hkey. induction keys as [|k keys IH]; intros Hnd Hv;
    [by apply elem_of_nil in Hv|].
  apply NoDup_cons in Hnd as [Hk Hnd]. simpl.
  assert (forall l, v ∉ l -> filter (fun r => key r = v) (map f l) = []) as Hnone.
  { induction l as [|k' l IHl]; [done|]. intros Hv'. simpl.
    apply not_elem_of_cons in Hv' as [Hne Hv'].
    rewrite filter_cons_False by (rewrite Hkey; congruence). by apply IHl. }
  apply elem_of_cons in Hv as [->|Hv].
  - rewrite filter_cons_True by apply Hkey. by rewrite (Hnone keys Hk).
  - rewrite filter_cons_False; [by apply IH|].
    rewrite Hkey. intros ->. by apply Hk.
Qed.

(** X27. The synthetic table has one row for each distinct variant of the
    catalog, in sorted order of the variants; the cell of a variant is
    the dump of a dict that holds each procedure listed for the variant
    once, with the category of the last catalog row for that variant
    and procedure. *)
Theorem synthetic_table_one_row_per_variant
    (json_dumps : list (string * string) -> string) (df : list Embed.AcrRow) :
  NoDup (map Mapping.Variant (Synthetic.generate_synthetic json_dumps df)) /\
  Sorted Synthetic.str_le
    (map Mapping.Variant (Synthetic.generate_synthetic json_dumps df)) /\
  (forall v, v ∈ map Mapping.Variant (Synthetic.generate_synthetic json_dumps df)
     <-> exists row, row ∈ df /\ Embed.Variant row = v) /\
  (forall r, r ∈ Synthetic.generate_synthetic json_dumps df ->
     exists procedures,
       Mapping.procedure_json r = CStr (json_dumps procedures) /\
       NoDup (map fst procedures) /\
       forall k, assoc_get k procedures =
         Embed.Appropriateness_Category <$>
           last (filter (fun row => Embed.Procedure row = k)
                        (filter (fun row => Embed.Variant row = Mapping.Variant r) df))).
Proof.
  destruct (group_keys_spec df) as (Hnd & Hsorted & Hmem).
  assert (map Mapping.Variant (Synthetic.generate_synthetic json_dumps df)
          = Synthetic.group_keys df) as ->.
  { unfold Synthetic.generate_synthetic. rewrite map_map. simpl. apply map_id. }
  split; [exact Hnd|]. split; [exact Hsorted|]. split; [exact Hmem|].
  intros r Hr. unfold Synthetic.generate_synthetic in Hr.
  change (map ?f ?l) with (f <$> l) in Hr.
  apply list_elem_of_fmap in Hr as (v & -> & _). simpl.
  destruct (procedures_of_group_spec (Synthetic.group df v)) as (H1 & H2 & _).
  eexists. split; [reflexivity|]. split; [exact H1 | exact H2].
Qed.

(** X28. From the catalog to the scorer: when the dump of a variant's dict
    parses back to that dict, the procedure set the scorer extracts for
    a variant of the catalog, through the synthetic table and the
    procedure mapping, is the set of the procedures listed for this
    variant in the catalog. The rows read from the synthetic file are
    taken to be the rows written to it. *)
Theorem catalog_procedures_reach_the_scorer
    (json_loads literal_eval : string -> option PyVal) (py_repr : PyVal -> string)
    (json_dumps : list (string * string) -> string)
    (df : list Embed.AcrRow) (variant : string) :
  (exists row, row ∈ df /\ Embed.Variant row = variant) ->
  json_loads (json_dumps (Synthetic.procedures_of_group (Synthetic.group df variant)))
    = Some (as_object (Synthetic.procedures_of_group (Synthetic.group df variant))) ->
  exists S,
    procedures_of json_loads literal_eval py_repr
      (Mapping.load_procedures (Synthetic.generate_synthetic json_dumps df)) variant
      = Ok S /\
    forall k, k ∈ S <->
      exists row, row ∈ df /\ Embed.Variant row = variant /\ k = KStr (Embed.Procedure row).
Proof.
  intros Hv Hround.
  destruct (group_keys_spec df) as (Hnd & _ & Hmem).
  apply Hmem in Hv.
  unfold procedures_of. rewrite load_procedures_spec.
  set (f := fun v =>
         {| Mapping.Variant := v;
            Mapping.procedure_json :=
              CStr (json_dumps (Synthetic.procedures_of_group (Synthetic.group df v))) |}).
  change (Synthetic.generate_synthetic json_dumps df)
    with (map f (Synthetic.group_keys df)).
  rewrite (last_filter_map_key f Mapping.Variant (Synthetic.group_keys df) variant
             (fun k => eq_refl) Hnd Hv).
  subst f. simpl.
  set (d := Synthetic.procedures_of_group (Synthetic.group df variant)) in *.
  rewrite (extract_object json_loads literal_eval py_repr (CStr (json_dumps d))
             (map (fun e => (e.1, PStr e.2)) d)).
  - eexists. split; [reflexivity|]. intros k.
    rewrite elem_of_list_to_set, map_map. simpl.
    destruct (procedures_of_group_spec (Synthetic.group df variant)) as (_ & _ & H3).
    fold d in H3.
    change (map ?f ?l) with (f <$> l). rewrite list_elem_of_fmap. split.
    + intros ([name cat] & -> & Hin). simpl.
      assert (name ∈ map fst d) as Hname.
      { change (map fst d) with (fst <$> d). apply list_elem_of_fmap. by exists (name, cat). }
      apply H3 in Hname as (row & Hrow & <-).
      apply list_elem_of_filter in Hrow as [Hvar Hrow]. eauto.
    + intros (row & Hrow & Hvar & ->).
      assert (Embed.Procedure row ∈ map fst d) as Hname.
      { apply H3. exists row. split; [|done]. by apply list_elem_of_filter. }
      change (map fst d) with (fst <$> d) in Hname.
      apply list_elem_of_fmap in Hname as ([name cat] & Hn & Hin). simpl in Hn.
      exists (name, cat). simpl. by rewrite Hn.
  - simpl. rewrite Hround. unfold as_object. by rewrite map_map.
Qed.

Lemma catalog_procedures_reach_the_scorer_witness :
  exists S,
    procedures_of
      (const_loads (as_object [("CT head"%string, "Usually appropriate"%string);
                               ("MRI head"%string, "Usually appropriate"%string)]))
      sample_literal_eval sample_repr
      (Mapping.load_procedures
         (Synthetic.generate_synthetic (fun _ => "{...}"%string) catalog_sample))
      "Sudden onset" = Ok S /\
    (KStr "MRI head" ∈ S <->
     exists row, row ∈ catalog_sample /\ Embed.Variant row = "Sudden onset"%string /\
                 KStr "MRI head" = KStr (Embed.Procedure row)).
Proof.
  destruct (catalog_procedures_reach_the_scorer
              (const_loads (as_object [("CT head"%string, "Usually appropriate"%string);
                                       ("MRI head"%string, "Usually appropriate"%string)]))
              sample_literal_eval sample_repr (fun _ => "{...}"%string)
              catalog_sample "Sudden onset") as (S & HS & Hmem).
  - eexists. split; [apply elem_of_cons; left; reflexivity | reflexivity].
  - reflexivity.
  - exists S. split; [exact HS | apply Hmem].
Defined.

Lemma synthetic_table_one_row_per_variant_witness :
  map Mapping.Variant (Synthetic.generate_synthetic (fun _ => "{...}"%string) catalog_sample)
    = ["Acute"%string; "Sudden onset"%string] /\
  Synthetic.procedures_of_group (Synthetic.group catalog_sample "Sudden onset")
    = [("CT head"%string, "Usually appropriate"%string);
       ("MRI head"%string, "Usually appropriate"%string)] /\
  "Acute"%string ∈
    map Mapping.Variant (Synthetic.generate_synthetic (fun _ => "{...}"%string) catalog_sample).
Proof.
  split; [vm_compute; reflexivity|]. split; [vm_compute; reflexivity|].
  apply (synthetic_table_one_row_per_variant (fun _ => "{...}"%string) catalog_sample).
  eexists. split; [apply elem_of_cons; right; apply elem_of_cons; left; reflexivity|].
  reflexivity.
Defined.

(** ** Properties of the report and of the text template *)

Lemma max_from_spec {A : Type} (key : A -> Q) (items : list A) : forall best,
  (Report.max_from key best items = best \/ Report.max_from key best items ∈ items) /\
  (key best <= key (Report.max_from key best items))%Q /\
  (forall x, x ∈ items -> (key x <= key (Report.max_from key best items))%Q).
Proof.
  induction items as [|y items IH]; intros best; simpl.
  - split; [by left|]. split; [lra|]. intros x Hx. by apply elem_of_nil in Hx.
  - destruct (Qlt_le_dec (key best) (key y)) as [Hlt|Hle].
    + destruct (IH y) as (Hin & Hy & Hall). split; [|split].
      * right. apply elem_of_cons. destruct Hin as [->|Hin]; auto.
      * lra.
      * intros x Hx. apply elem_of_cons in Hx as [->|Hx]; auto.
    + destruct (IH best) as (Hin & Hb & Hall). split; [|split].
      * destruct Hin as [->|Hin]; [by left|]. right. apply elem_of_cons. auto.
      * exact Hb.
      * intros x Hx. apply elem_of_cons in Hx as [->|Hx]; [lra | auto].
Qed.

Lemma min_from_spec {A : Type} (key : A -> Q) (items : list A) : forall worst,
  (Report.min_from key worst items = worst \/ Report.min_from key worst items ∈ items) /\
  (key (Report.min_from key worst items) <= key worst)%Q /\
  (forall x, x ∈ items -> (key (Report.min_from key worst items) <= key x)%Q).
Proof.
  induction items as [|y items IH]; intros worst; simpl.
  - split; [by left|]. split; [lra|]. intros x Hx. by apply elem_of_nil in Hx.
  - destruct (Qlt_le_dec (key y) (key worst)) as [Hlt|Hle].
    + destruct (IH y) as (Hin & Hy & Hall). split; [|split].
      * right. apply elem_of_cons. destruct Hin as [->|Hin]; auto.
      * lra.
      * intros x Hx. apply elem_of_cons in Hx as [->|Hx]; auto.
    + destruct (IH worst) as (Hin & Hb & Hall). split; [|split].
      * destruct Hin as [->|Hin]; [by left|]. right. apply elem_of_cons. auto.
      * exact Hb.
      * intros x Hx. apply elem_of_cons in Hx as [->|Hx]; [lra | auto].
Qed.

Lemma from_all_equal {A : Type} (key : A -> Q) (items : list A) (first : A) :
  (forall x, x ∈ items -> (key x == key first)%Q) ->
  Report.max_from key first items = first /\ Report.min_from key first items = first.
Proof.
  induction items as [|y items IH]; intros Hall; simpl; [done|].
  assert (key y == key first)%Q as Hy by (apply Hall, elem_of_cons; by left).
  destruct (Qlt_le_dec (key first) (key y)) as [?|_]; [lra|].
  destruct (Qlt_le_dec (key y) (key first)) as [?|_]; [lra|].
  apply IH. intros x Hx. apply Hall, elem_of_cons. by right.
Qed.

(** X22. The type reported as best has the greatest accuracy of the summary
    and the one reported as worst the smallest, both are entries of the
    summary, and the accuracy range is never negative; when all the
    accuracies are equal, both are the first entry. *)
Theorem report_insights_extremes
    (results_summary : list Desc3.EvalSummary)
    (best worst : Desc3.EvalSummary) (accuracy_range : Q) :
  Report.insights results_summary = Some (best, worst, accuracy_range) ->
  best ∈ results_summary /\ worst ∈ results_summary /\
  (forall s, s ∈ results_summary ->
     (Desc3.accuracy worst <= Desc3.accuracy s <= Desc3.accuracy best)%Q) /\
  (0 <= accuracy_range)%Q /\
  ((forall s, s ∈ results_summary ->
      (Desc3.accuracy s == Desc3.accuracy best)%Q) ->
   head results_summary = Some best /\ head results_summary = Some worst).
Proof.
  destruct results_summary as [|first rest]; [discriminate|]. simpl.
  intros [= <- <- <-].
  destruct (max_from_spec Desc3.accuracy rest first) as (Hbin & Hb1 & Hb2).
  destruct (min_from_spec Desc3.accuracy rest first) as (Hwin & Hw1 & Hw2).
  split; [apply elem_of_cons; destruct Hbin as [->|?]; auto|].
  split; [apply elem_of_cons; destruct Hwin as [->|?]; auto|].
  split; [|split].
  - intros s Hs. apply elem_of_cons in Hs as [->|Hs]; split; auto.
  - lra.
  - intros Hall.
    assert (forall x, x ∈ rest -> (Desc3.accuracy x == Desc3.accuracy first)%Q) as Heq.
    { intros x Hx.
      rewrite (Hall x) by (apply elem_of_cons; by right).
      symmetry. apply Hall, elem_of_cons. by left. }
    destruct (from_all_equal Desc3.accuracy rest first Heq) as [-> ->]. done.
Qed.

Lemma report_insights_extremes_witness :
  exists best worst accuracy_range,
    Report.insights
      (Desc3.evaluate_synthetic_descriptions string echo_encode echo_index keep_round
         two_cases).1 = Some (best, worst, accuracy_range) /\
    Desc3.summary_description_type best = "desc_1"%string /\
    Desc3.summary_description_type worst = "desc_2"%string /\
    (0 <= accuracy_range)%Q.
Proof.
  eexists _, _, _. split; [vm_compute; reflexivity|].
  split; [reflexivity|]. split; [reflexivity|].
  match goal with
  | |- (0 <= ?r)%Q =>
      eapply (report_insights_extremes
                (Desc3.evaluate_synthetic_descriptions string echo_encode echo_index
                   keep_round two_cases).1 _ _ r)
  end.
  vm_compute. reflexivity.
Defined.

Lemma str_app_inj (s a b : string) : s +:+ a = s +:+ b -> a = b.
Proof.
  induction s as [|c s IH]; [done|].
  change (String c s +:+ a) with (String c (s +:+ a)).
  change (String c s +:+ b) with (String c (s +:+ b)).
  intros [= H]. by apply IH.
Qed.

(** X29. Under one condition, the text embedded for a catalog row determines
    the variant: two rows of the same condition get the same text, and
    so the same embedding, exactly when they have the same variant,
    whatever their procedures. *)
Theorem combined_text_separates_variants (row1 row2 : Embed.AcrRow) :
  Embed.Condition row1 = Embed.Condition row2 ->
  (Embed.combined_text row1 = Embed.combined_text row2 <->
   Embed.Variant row1 = Embed.Variant row2).
Proof.
  intros Hc. unfold Embed.combined_text. rewrite Hc. split.
  - intros H. do 3 apply str_app_inj in H. exact H.
  - by intros ->.
Qed.

Lemma combined_text_separates_variants_witness :
  Embed.combined_text row_device <>
  Embed.combined_text
    {| Embed.Condition := "Pacemaker"; Embed.Variant := "Follow-up";
       Embed.Procedure := "CT chest";
       Embed.Appropriateness_Category := "Usually appropriate" |}.
Proof.
  intros H.
  apply (combined_text_separates_variants row_device
           {| Embed.Condition := "Pacemaker"; Embed.Variant := "Follow-up";
              Embed.Procedure := "CT chest";
              Embed.Appropriateness_Category := "Usually appropriate" |} eq_refl) in H.
  discriminate H.
Defined.
